(** * The TLS network plugin of Monkey (lib/monkey/plugins/tls/tls.c)

    A shallow embedding of the per-thread connection-context pool and of the
    non-blocking I/O adapter ([mk_tls_read], [mk_tls_write], [mk_tls_writev],
    [mk_tls_send_file], [mk_tls_close]) together with the properties the
    specification states about them.

    The PolarSSL engine, the sockets, the file system, the allocator and the
    header constants are not part of tls.c: they are the fields of the class
    [Platform], and every definition below is parametric in them. *)

From Stdlib Require Import ZArith String Lia.
From stdpp Require Import base numbers option list.

Local Open Scope Z_scope.

(** ** Machine integers *)

(** A value converted to a signed integer type of [w] bits (two's complement
    wrap-around, as gcc and clang convert). *)
Definition wrap_signed (w : Z) (z : Z) : Z :=
  (z + 2 ^ (w - 1)) mod 2 ^ w - 2 ^ (w - 1).

Definition to_int (z : Z) : Z := wrap_signed 32 z.
Definition to_ssize_t (z : Z) : Z := wrap_signed 64 z.
Definition to_off_t (z : Z) : Z := wrap_signed 64 z.
Definition INT_MAX : Z := 2 ^ 31 - 1.
Definition SSIZE_MAX : Z := 2 ^ 63 - 1.

(** ** Data model *)

(** [ssl_context] of PolarSSL: the two fields tls.c reads, and the rest of the
    engine's per-connection state. [in_offt] is a pointer into the current
    record ([None] is NULL), [in_msglen] is a [size_t]. *)
Record ssl_context (S : Type) : Type := Build_ssl_context {
  in_offt : option Z;
  in_msglen : N;
  ssl_state : S
}.
Arguments Build_ssl_context {S} _ _ _.
Arguments in_offt {S} _.
Arguments in_msglen {S} _.
Arguments ssl_state {S} _.

(** What lies outside the plugin: [errno] and everything else (peers, sockets,
    files, the heap). *)
Record sys (E : Type) : Type := Build_sys {
  errno : Z;
  outside : E
}.
Arguments Build_sys {E} _ _.
Arguments errno {E} _.
Arguments outside {E} _.

(** [struct mk_iov]: the scattered buffers (each [struct iovec] as the bytes
    [iov_base .. iov_base + iov_len)), the number of entries in use and the sum
    of their lengths. *)
Record mk_iov : Type := Build_mk_iov {
  io : list (list Byte.byte);
  iov_idx : Z;
  total_len : Z
}.

(** The collaborators of tls.c. The engine functions receive the context and
    the descriptor its BIO callbacks read at that moment ([ssl_set_bio] is given
    the address of the [fd] field of the pool entry, not a fixed descriptor). *)
Class Platform : Type := {
  session : Type;
  extern : Type;
  (* polarssl/net.h, polarssl/ssl.h, errno.h *)
  POLARSSL_ERR_NET_WANT_READ : Z;
  POLARSSL_ERR_NET_WANT_WRITE : Z;
  POLARSSL_ERR_SSL_CONN_EOF : Z;
  EAGAIN : Z;
  (* SSL_MAX_CONTENT_LEN *)
  SENDFILE_BUF_SIZE : Z;
  sizeof_polar_context_head : Z;
  (* ssl_init followed by the ssl_set_* calls of context_new *)
  ssl_init_server : ssl_context session;
  (* ssl_read ssl bio_fd count: result and the bytes stored in the buffer *)
  ssl_read : ssl_context session -> Z -> Z -> sys extern ->
             (Z * list Byte.byte) * ssl_context session * sys extern;
  (* ssl_write ssl bio_fd buf len *)
  ssl_write : ssl_context session -> Z -> list Byte.byte -> Z -> sys extern ->
              Z * ssl_context session * sys extern;
  ssl_close_notify : ssl_context session -> Z -> sys extern ->
                     Z * ssl_context session * sys extern;
  ssl_session_reset : ssl_context session -> ssl_context session;
  net_close : Z -> sys extern -> sys extern;
  (* pread file_fd count offset: result and the bytes stored in the buffer *)
  pread : Z -> Z -> Z -> sys extern -> (Z * list Byte.byte) * sys extern;
  (* mk_api->mem_alloc size: whether the result is not NULL *)
  mem_alloc : Z -> sys extern -> bool * sys extern
}.

(** Calls that leave the plugin, in the order they are made. A context is
    named by its position in the thread's list: entries are never removed or
    reordered before [polar_exit], so the position stands for the address. *)
Inductive event : Type :=
| ev_ssl_read (ssl : nat) (count : Z) (ret : Z)
| ev_ssl_write (ssl : nat) (buf : list Byte.byte) (len : Z) (ret : Z)
| ev_ssl_close_notify (ssl : nat) (ret : Z)
| ev_ssl_session_reset (ssl : nat)
| ev_net_close (fd : Z)
| ev_pread (file_fd : Z) (count : Z) (offset : Z) (used : Z)
| ev_mk_err (msg : string).

Section Model.
Context {P : Platform}.

(** [struct polar_context_head]; [_next] is the tail of the list. *)
Record polar_context_head : Type := Build_polar_context_head {
  context : ssl_context session;
  fd : Z
}.

(** [struct polar_thread_context], without the RNG and the key that only the
    engine reads. *)
Record polar_thread_context : Type := Build_polar_thread_context {
  contexts : list polar_context_head
}.

(** The state one worker thread sees: its thread-local pointer
    ([pthread_getspecific (local_context)], NULL outside workers), the outside
    and the calls made so far. *)
Record world : Type := Build_world {
  local_context : option polar_thread_context;
  host : sys extern;
  trace : list event
}.

(** ** The monad of the plugin's code *)

Inductive outcome (A : Type) : Type :=
| Done (a : A) (w : world)
| Fault        (* failed assert or NULL dereference *)
| OutOfFuel.   (* the loop was cut off by the model *)
Arguments Done {A} _ _.
Arguments Fault {A}.
Arguments OutOfFuel {A}.

Definition M (A : Type) : Type := world -> outcome A.

Definition ret {A} (a : A) : M A := fun w => Done a w.

Definition bind {A B} (m : M A) (f : A -> M B) : M B :=
  fun w => match m w with
           | Done a w' => f a w'
           | Fault => Fault
           | OutOfFuel => OutOfFuel
           end.

Definition fault {A} : M A := fun _ => Fault.
Definition out_of_fuel {A} : M A := fun _ => OutOfFuel.

Definition get_errno : M Z := fun w => Done (errno (host w)) w.

Definition set_errno (e : Z) : M unit := fun w =>
  Done tt (Build_world (local_context w)
                       (Build_sys e (outside (host w)))
                       (trace w)).

Definition log (e : event) : M unit := fun w =>
  Done tt (Build_world (local_context w) (host w) (trace w ++ [e])).

Definition mk_err (msg : string) : M unit := log (ev_mk_err msg).

Definition local_thread_context : M (option polar_thread_context) :=
  fun w => Done (local_context w) w.

Definition set_contexts (l : list polar_context_head) : M unit := fun w =>
  Done tt (Build_world (Some (Build_polar_thread_context l)) (host w) (trace w)).

(** A call on the outside alone. *)
Definition sys_call {R} (f : sys extern -> R * sys extern) : M R := fun w =>
  let '(r, s) := f (host w) in
  Done r (Build_world (local_context w) s (trace w)).

(** A call of the engine on the context [ssl] points to: the engine sees the
    context and the descriptor of its entry, and updates the context in place.
    A NULL or dangling [ssl] is a fault. *)
Definition engine_call {R} (ssl : option nat)
    (f : ssl_context session -> Z -> sys extern ->
         R * ssl_context session * sys extern)
    (ev : nat -> R -> event) : M R := fun w =>
  match ssl, local_context w with
  | Some i, Some th =>
      match contexts th !! i with
      | Some head =>
          let '(r, c, s) := f (context head) (fd head) (host w) in
          Done r (Build_world
                    (Some (Build_polar_thread_context
                       (<[i := Build_polar_context_head c (fd head)]> (contexts th))))
                    s
                    (trace w ++ [ev i r]))
      | None => Fault
      end
  | _, _ => Fault
  end.

End Model.

Arguments Done {P A} _ _.
Arguments Fault {P A}.
Arguments OutOfFuel {P A}.

Declare Scope tls_scope.
Delimit Scope tls_scope with tls.
Notation "x <- m ;; k" := (bind m (fun x => k))
  (at level 100, m at next level, right associativity, only parsing) : tls_scope.
Notation "m ;;; k" := (bind m (fun _ => k))
  (at level 100, right associativity, only parsing) : tls_scope.

(** ** The code of tls.c *)

Section Plugin.
Context {P : Platform}.
Local Open Scope tls_scope.

(** The entry [ssl] points into ([container_of]); a NULL or dangling pointer
    is a fault. *)
Definition head_of (ssl : option nat) : M polar_context_head := fun w =>
  match ssl, local_context w with
  | Some i, Some th =>
      match contexts th !! i with
      | Some head => Done head w
      | None => Fault
      end
  | _, _ => Fault
  end.

(** [head->fd = v] *)
Definition set_head_fd (ssl : option nat) (v : Z) : M unit :=
  head <- head_of ssl ;;
  thctx <- local_thread_context ;;
  match ssl, thctx with
  | Some i, Some th =>
      set_contexts (<[i := Build_polar_context_head (context head) v]> (contexts th))
  | _, _ => fault
  end.

(** tls.c:126 *)
Definition polar_get_bytes_avail (ssl : ssl_context session) : N :=
  match in_offt ssl with
  | None => 0%N
  | Some _ => in_msglen ssl
  end.

(** tls.c:158 *)
Definition handle_return (r : Z) : M Z :=
  if r <? 0 then
    if (r =? POLARSSL_ERR_NET_WANT_READ) || (r =? POLARSSL_ERR_NET_WANT_WRITE) then
      e <- get_errno ;;
      (if negb (e =? EAGAIN) then set_errno EAGAIN else ret tt) ;;;
      ret (-1)
    else if r =? POLARSSL_ERR_SSL_CONN_EOF then
      ret 0
    else
      e <- get_errno ;;
      (if e =? EAGAIN then set_errno 0 else ret tt) ;;;
      ret (-1)
  else
    ret r.

(** The scan of the linked list in [context_get] and [context_new] (a [for]
    loop that follows [_next] and stops at the first entry whose [fd] is [fd0]):
    the position of that entry, or [None] when the end of the list is reached. *)
Fixpoint context_scan (fd0 : Z) (cur : list polar_context_head) : option nat :=
  match cur with
  | [] => None
  | head :: next =>
      if fd head =? fd0 then Some O else S <$> context_scan fd0 next
  end.

(** tls.c:471. [cur == NULL] stands for a thread without thread context (the
    list is the first member of the structure). *)
Definition context_get (fd0 : Z) : M (option nat) :=
  thctx <- local_thread_context ;;
  match thctx with
  | None => ret None
  | Some th => ret (context_scan fd0 (contexts th))
  end.

(** tls.c:515 *)
Definition context_new (fd0 : Z) : M (option nat) :=
  thctx <- local_thread_context ;;
  match thctx with
  | None => fault                                  (* assert(cur != NULL) *)
  | Some th =>
      match context_scan (-1) (contexts th) with
      | None =>
          ok <- sys_call (mem_alloc sizeof_polar_context_head) ;;
          if negb ok then ret None
          else
            set_contexts (contexts th ++ [Build_polar_context_head ssl_init_server fd0]) ;;;
            ret (Some (length (contexts th)))
      | Some i =>
          set_head_fd (Some i) fd0 ;;;
          ret (Some i)
      end
  end.

(** tls.c:569 *)
Definition context_unset (fd0 : Z) (ssl : option nat) : M Z :=
  head <- head_of ssl ;;
  (if fd head =? fd0 then
     set_head_fd ssl (-1) ;;;
     engine_call ssl (fun c _ s => (tt, ssl_session_reset c, s))
                 (fun i _ => ev_ssl_session_reset i)
   else
     mk_err "Context already unset.") ;;;
  ret 0.

(** [ssl = context_get(fd); if (!ssl) ssl = context_new(fd);] *)
Definition context_get_or_new (fd0 : Z) : M (option nat) :=
  ssl <- context_get fd0 ;;
  match ssl with
  | None => context_new fd0
  | Some _ => ret ssl
  end.

(** tls.c:586. The result is the returned [int] and the bytes stored in
    [buf]. [ret += avail] adds an [int] to a [size_t] and stores the sum in an
    [int]: the conversion back keeps the low 32 bits. *)
Definition mk_tls_read (fd0 : Z) (count : Z) : M (Z * list Byte.byte) :=
  ssl <- context_get_or_new fd0 ;;
  rd <- engine_call ssl (fun c bio => ssl_read c bio count)
                    (fun i rd => ev_ssl_read i count (fst rd)) ;;
  let buf := snd rd in
  r <- handle_return (fst rd) ;;
  if r >? 0 then
    head <- head_of ssl ;;
    let avail := polar_get_bytes_avail (context head) in
    if (0 <? avail)%N then ret (to_int (r + Z.of_N avail), buf)
    else ret (r, buf)
  else ret (r, buf).

(** tls.c:615 *)
Definition mk_tls_write (fd0 : Z) (buf : list Byte.byte) (count : Z) : M Z :=
  ssl <- context_get_or_new fd0 ;;
  r <- engine_call ssl (fun c bio => ssl_write c bio buf count)
                   (fun i r => ev_ssl_write i buf count r) ;;
  handle_return r.

(** The copy loop of [mk_tls_writev]: [buf] is the filled part of the scratch
    buffer, [used] its length. *)
Fixpoint iov_copy (io : list (list Byte.byte)) (buf : list Byte.byte) (used : Z)
  : list Byte.byte * Z :=
  match io with
  | [] => (buf, used)
  | b :: rest => iov_copy rest (buf ++ b) (used + Z.of_nat (length b))
  end.

(** tls.c:625 *)
Definition mk_tls_writev (fd0 : Z) (mk_io : mk_iov) : M Z :=
  let iov_len := iov_idx mk_io in
  let len := total_len mk_io in
  ssl <- context_get_or_new fd0 ;;
  ok <- sys_call (mem_alloc len) ;;
  if negb ok then
    mk_err "malloc failed" ;;;
    ret (-1)
  else
    let '(buf, used) := iov_copy (take (Z.to_nat iov_len) (io mk_io)) [] 0 in
    if negb (used =? len) then fault                (* assert(used == len) *)
    else
      r <- engine_call ssl (fun c bio => ssl_write c bio buf len)
                       (fun i r => ev_ssl_write i buf len r) ;;
      handle_return r.

Definition pread_call (file_fd count offset : Z) : M (Z * list Byte.byte) :=
  r <- sys_call (pread file_fd count offset) ;;
  log (ev_pread file_fd count offset (fst r)) ;;;
  ret r.

(** The [do ... while (ret > 0)] loop of [mk_tls_send_file], cut off after
    [fuel] iterations. The result is [ret], [sent] and [*file_offset]. *)
Fixpoint send_file_loop (fuel : nat) (ssl : option nat) (file_fd : Z)
    (remain sent file_offset : Z) : M (Z * Z * Z) :=
  match fuel with
  | O => out_of_fuel
  | S fuel =>
      rd <- pread_call file_fd SENDFILE_BUF_SIZE file_offset ;;
      let used := fst rd in
      let buf := snd rd in
      r <- (if used =? 0 then ret 0
            else if used <? 0 then
              mk_err "Read from file failed" ;;;
              ret (-1)
            else if remain >? 0 then
              let len := if used <? remain then used else remain in
              engine_call ssl (fun c bio => ssl_write c bio buf len)
                          (fun i r => ev_ssl_write i buf len r)
            else
              engine_call ssl (fun c bio => ssl_write c bio buf used)
                          (fun i r => ev_ssl_write i buf used r)) ;;
      if r >? 0 then
        send_file_loop fuel ssl file_fd
          (if remain >? 0 then to_ssize_t (remain - r) else remain)
          (to_ssize_t (sent + r))
          (to_off_t (file_offset + r))
      else ret (r, sent, file_offset)
  end.

(** tls.c:657. The result is the returned [int] and [*file_offset]. *)
Definition mk_tls_send_file (fuel : nat) (fd0 file_fd file_offset file_count : Z)
  : M (Z * Z) :=
  ssl <- context_get_or_new fd0 ;;
  ok <- sys_call (mem_alloc SENDFILE_BUF_SIZE) ;;
  if negb ok then ret (-1, file_offset)
  else
    st <- send_file_loop fuel ssl file_fd (to_ssize_t file_count) 0 file_offset ;;
    let '(r, sent, off) := st in
    if sent >? 0 then ret (to_int sent, off)
    else
      r <- handle_return r ;;
      ret (r, off).

Definition net_close_call (fd0 : Z) : M unit :=
  sys_call (fun s => (tt, net_close fd0 s)) ;;;
  log (ev_net_close fd0).

(** tls.c:709 *)
Definition mk_tls_close (fd0 : Z) : M Z :=
  ssl <- context_get fd0 ;;
  (match ssl with
   | Some i =>
       engine_call ssl ssl_close_notify ev_ssl_close_notify ;;;
       context_unset fd0 ssl ;;;
       ret tt
   | None => ret tt
   end) ;;;
  net_close_call fd0 ;;;
  ret 0.

(** The state of a worker after [mk_tls_worker_init] succeeded:
    [thctx->contexts = NULL]. *)
Definition worker_world (s : sys extern) : world :=
  Build_world (Some (Build_polar_thread_context [])) s [].

End Plugin.

(** ** Reading the state and the results *)

Section Observations.
Context {P : Platform}.

(** The list of the calling thread, empty when the thread has no context. *)
Definition pool (w : world) : list polar_context_head :=
  match local_context w with
  | Some th => contexts th
  | None => []
  end.

(** The bound-descriptor fields of the list, in order. *)
Definition fds (w : world) : list Z := fd <$> pool w.

(** No two entries carry the same descriptor, the free marker -1 apart. *)
Definition unique_fds (ds : list Z) : Prop :=
  forall i j d, ds !! i = Some d -> ds !! j = Some d -> d <> -1 -> i = j.

(** At most one entry of the list is bound to [d]. *)
Definition at_most_one_bound (d : Z) (w : world) : Prop :=
  forall i j hi hj,
    pool w !! i = Some hi -> pool w !! j = Some hj ->
    fd hi = d -> fd hj = d -> i = j.

(** A computation that leaves the bound-descriptor fields as they are. *)
Definition stable {A} (m : M A) : Prop :=
  forall w a w', m w = Done a w' -> fds w' = fds w.

(** A computation that only adds calls to the trace. *)
Definition grows {A} (m : M A) : Prop :=
  forall w a w', m w = Done a w' -> exists rest, trace w' = trace w ++ rest.

(** The result of the spec's [get fd] on a state, as a value. *)
Definition bound_context (fd0 : Z) (w : world) : option nat :=
  context_scan fd0 (pool w).

(** How the host reads the [int] an operation returns together with [errno]
    (the result variant of the specification). *)
Inductive IoResult : Type :=
| Data (n : Z)
| WouldBlock
| Eof
| Error.

Definition io_result (r : Z) (e : Z) : IoResult :=
  if r >? 0 then Data r
  else if r =? 0 then Eof
  else if e =? EAGAIN then WouldBlock
  else Error.

(** The translation table of the specification: what the host has to read
    from the returned [int] [r] and [errno] [err] when the engine returned [e]. *)
Definition translated (e r err : Z) : Prop :=
  (e = POLARSSL_ERR_NET_WANT_READ \/ e = POLARSSL_ERR_NET_WANT_WRITE ->
   io_result r err = WouldBlock) /\
  (e = POLARSSL_ERR_SSL_CONN_EOF -> io_result r err = Eof) /\
  (e < 0 -> e <> POLARSSL_ERR_NET_WANT_READ -> e <> POLARSSL_ERR_NET_WANT_WRITE ->
   e <> POLARSSL_ERR_SSL_CONN_EOF -> io_result r err = Error) /\
  (0 <= e -> r = e).

(** What the C compiler and errno.h guarantee about the constants: the case
    labels of [handle_return] are negative and distinct, [EAGAIN] is a
    positive error number. *)
Definition headers_ok : Prop :=
  POLARSSL_ERR_NET_WANT_READ < 0 /\
  POLARSSL_ERR_NET_WANT_WRITE < 0 /\
  POLARSSL_ERR_SSL_CONN_EOF < 0 /\
  POLARSSL_ERR_SSL_CONN_EOF <> POLARSSL_ERR_NET_WANT_READ /\
  POLARSSL_ERR_SSL_CONN_EOF <> POLARSSL_ERR_NET_WANT_WRITE /\
  0 < EAGAIN.

(** A [struct mk_iov] as [mk_iov_add_entry] keeps it. *)
Definition mk_iov_wf (mk_io : mk_iov) : Prop :=
  iov_idx mk_io = Z.of_nat (length (io mk_io)) /\
  total_len mk_io = Z.of_nat (length (concat (io mk_io))).

(** The bytes given to [ssl_write] ([len] of each call) and the bytes it
    accepted (positive results), over a trace. *)
Fixpoint bytes_handed (tr : list event) : Z :=
  match tr with
  | [] => 0
  | ev_ssl_write _ _ len _ :: tr => len + bytes_handed tr
  | _ :: tr => bytes_handed tr
  end.

Fixpoint bytes_accepted (tr : list event) : Z :=
  match tr with
  | [] => 0
  | ev_ssl_write _ _ _ r :: tr => Z.max 0 r + bytes_accepted tr
  | _ :: tr => bytes_accepted tr
  end.

Definition is_pread (e : event) : bool :=
  match e with
  | ev_pread _ _ _ _ => true
  | _ => false
  end.

(** The public operations and the states they lead to. *)
Inductive operation : Type :=
| op_read (fd0 count : Z)
| op_write (fd0 : Z) (buf : list Byte.byte) (count : Z)
| op_writev (fd0 : Z) (mk_io : mk_iov)
| op_send_file (fuel : nat) (fd0 file_fd file_offset file_count : Z)
| op_close (fd0 : Z).

Definition run (o : operation) : M unit :=
  match o with
  | op_read fd0 count => bind (mk_tls_read fd0 count) (fun _ => ret tt)
  | op_write fd0 buf count => bind (mk_tls_write fd0 buf count) (fun _ => ret tt)
  | op_writev fd0 mk_io => bind (mk_tls_writev fd0 mk_io) (fun _ => ret tt)
  | op_send_file fuel fd0 file_fd off n =>
      bind (mk_tls_send_file fuel fd0 file_fd off n) (fun _ => ret tt)
  | op_close fd0 => bind (mk_tls_close fd0) (fun _ => ret tt)
  end.

Inductive reachable : world -> Prop :=
| reachable_init (s : sys extern) : reachable (worker_world s)
| reachable_step (w w' : world) (o : operation) :
    reachable w -> run o w = Done tt w' -> reachable w'.

(** The state after a list of operations, when all of them return. *)
Fixpoint run_all (os : list operation) (w : world) : option world :=
  match os with
  | [] => Some w
  | o :: os =>
      match run o w with
      | Done _ w' => run_all os w'
      | _ => None
      end
  end.

End Observations.

(** ** A plaintext platform

    An engine without cryptography, to run the code on: a context holds the
    plaintext of the record being read, [ssl_read] hands out its next bytes as
    PolarSSL does ([in_msglen] counts what is left, [in_offt] is NULL when
    nothing is), [ssl_write] accepts every byte it is given, [pread] reads one
    file. The constants are those of PolarSSL 1.3 and Linux. *)

Module Plain.

Record net : Type := Build_net {
  file : list Byte.byte;
  wire : list Byte.byte;
  closed : list Z
}.

Definition plain_ssl_read (c : ssl_context (list Byte.byte)) (bio count : Z)
    (s : sys net)
  : (Z * list Byte.byte) * ssl_context (list Byte.byte) * sys net :=
  match in_offt c with
  | None => ((-82, []), c, Build_sys 11 (outside s))
  | Some p =>
      let n := Z.min count (Z.of_N (in_msglen c)) in
      let left := (in_msglen c - Z.to_N n)%N in
      ((n, take (Z.to_nat n) (ssl_state c)),
       Build_ssl_context (if (left =? 0)%N then None else Some (p + n)) left
                         (drop (Z.to_nat n) (ssl_state c)),
       s)
  end.

Definition plain_ssl_write (c : ssl_context (list Byte.byte)) (bio : Z)
    (buf : list Byte.byte) (len : Z) (s : sys net)
  : Z * ssl_context (list Byte.byte) * sys net :=
  (len, c,
   Build_sys (errno s)
     (Build_net (file (outside s))
                (wire (outside s) ++ take (Z.to_nat len) buf)
                (closed (outside s)))).

Definition plain_pread (file_fd count offset : Z) (s : sys net)
  : (Z * list Byte.byte) * sys net :=
  if offset <? 0 then ((-1, []), s)
  else
    let data := take (Z.to_nat count) (drop (Z.to_nat offset) (file (outside s))) in
    ((Z.of_nat (length data), data), s).

Definition plain_net_close (fd0 : Z) (s : sys net) : sys net :=
  Build_sys (errno s)
    (Build_net (file (outside s)) (wire (outside s)) (closed (outside s) ++ [fd0])).

Definition platform : Platform := {|
  session := list Byte.byte;
  extern := net;
  POLARSSL_ERR_NET_WANT_READ := -82;      (* -0x0052 *)
  POLARSSL_ERR_NET_WANT_WRITE := -84;     (* -0x0054 *)
  POLARSSL_ERR_SSL_CONN_EOF := -29312;    (* -0x7280 *)
  EAGAIN := 11;
  SENDFILE_BUF_SIZE := 16384;
  sizeof_polar_context_head := 1024;
  ssl_init_server := Build_ssl_context None 0%N [];
  ssl_read := plain_ssl_read;
  ssl_write := plain_ssl_write;
  ssl_close_notify := fun c _ s => (0, c, s);
  ssl_session_reset := fun _ => Build_ssl_context None 0%N [];
  net_close := plain_net_close;
  pread := plain_pread;
  mem_alloc := fun _ s => (true, s)
|}.

(** A context in the middle of a record of which [l] is still unread. *)
Definition reading (l : list Byte.byte) : ssl_context (list Byte.byte) :=
  Build_ssl_context (Some 0) (N.of_nat (length l)) l.

Definition start (f : list Byte.byte) : sys net :=
  Build_sys 0 (Build_net f [] []).

Definition bytes8 : list Byte.byte :=
  [Byte.x01; Byte.x02; Byte.x03; Byte.x04; Byte.x05; Byte.x06; Byte.x07; Byte.x08].

Definition state (l : list (@polar_context_head platform)) (f : list Byte.byte)
  : @world platform :=
  @Build_world platform (Some (@Build_polar_thread_context platform l)) (start f) [].

Definition bound (d : Z) : @polar_context_head platform :=
  @Build_polar_context_head platform (Build_ssl_context None 0%N []) d.

(** A context bound to [d] with [l] still unread in the current record. *)
Definition bound_reading (d : Z) (l : list Byte.byte) : @polar_context_head platform :=
  @Build_polar_context_head platform (reading l) d.

(** A worker whose file holds eight bytes, before any operation. *)
Definition fresh : @world platform := @worker_world platform (start bytes8).

(** The state after the operations [os] on [fresh]. *)
Definition after (os : list operation) : @world platform :=
  default fresh (@run_all platform os fresh).

(** Three scattered buffers. *)
Definition three_buffers : mk_iov :=
  Build_mk_iov [[Byte.x01]; [Byte.x02; Byte.x03]; [Byte.x04]] 3 4.

End Plain.

(** ** Further observations and the teardown *)

Section MoreObservations.
Context {P : Platform}.

(** The descriptor an operation is called on. *)
Definition op_fd (o : operation) : Z :=
  match o with
  | op_read fd0 _ => fd0
  | op_write fd0 _ _ => fd0
  | op_writev fd0 _ => fd0
  | op_send_file _ fd0 _ _ _ => fd0
  | op_close fd0 => fd0
  end.

(** A computation that keeps every bound-descriptor field and changes no
    entry of the list but the one [ssl] points to. *)
Definition local_to {A} (ssl : option nat) (m : M A) : Prop :=
  forall w a w', m w = Done a w' ->
    fds w' = fds w /\
    forall j, ssl <> Some j -> pool w' !! j = pool w !! j.

(** What [contexts_free] asks of the engine and of the allocator, entry by
    entry (entries named by position). *)
Inductive release_call : Type :=
| rc_ssl_free (entry : nat)
| rc_mem_free (entry : nat).

(** The loop of [contexts_free] (tls.c:420): [cur] is entry [i], [next] the
    rest of the list; the entry after the last is released after the loop. *)
Fixpoint contexts_free_loop (i : nat) (cur : polar_context_head)
    (next : list polar_context_head) : list release_call :=
  match next with
  | [] => [rc_ssl_free i; rc_mem_free i]
  | n :: rest => rc_ssl_free i :: rc_mem_free i :: contexts_free_loop (S i) n rest
  end.

(** tls.c:412 *)
Definition contexts_free (ctx : list polar_context_head) : list release_call :=
  match ctx with
  | [] => []
  | cur :: next => contexts_free_loop 0 cur next
  end.

End MoreObservations.

(** ** Configuration and start-up (tls.c:188-410, 725-746) *)

(** [struct polar_config]: four paths, NULL when not set. *)
Record polar_config : Type := Build_polar_config {
  cert_file : option string;
  cert_chain_file : option string;
  key_file : option string;
  dh_param_file : option string
}.

(** The configuration reader of the host ([mk_api->config_create] and
    [config_section_get_key] with [MK_RCONF_STR]) and [strcasecmp]. *)
Class Settings : Type := {
  mk_rconf_section : Type;
  section_name : mk_rconf_section -> string;
  (* the sections of the file, NULL when it cannot be read *)
  config_create : string -> option (list mk_rconf_section);
  config_section_get_key : mk_rconf_section -> string -> option string;
  strcasecmp : string -> string -> Z
}.

(** Where [x509_crt_parse_file] stores what it reads, and which number
    [mpi_read_string] fills. *)
Inductive crt_chain : Type := own_cert | ca_cert_next.
Inductive dhm_number : Type := dhm_P | dhm_G.

(** The parsing and seeding functions of PolarSSL that the start-up code
    calls, and the sizes it allocates. The built-in certificate and key
    ([test_srv_crt], [test_srv_key]) exist when [POLARSSL_CERTS_C] is
    defined. *)
Class Crypto (P : Platform) : Type := {
  POLARSSL_CERTS_C : bool;
  sizeof_polar_server_context : Z;
  sizeof_polar_thread_context : Z;
  mem_alloc_z : Z -> sys extern -> bool * sys extern;
  x509_crt_parse_file : crt_chain -> option string -> sys extern -> Z * sys extern;
  x509_crt_parse_test_srv_crt : sys extern -> Z * sys extern;
  pk_init : sys extern -> sys extern;
  pk_parse_keyfile : option string -> sys extern -> Z * sys extern;
  pk_parse_test_srv_key : sys extern -> Z * sys extern;
  dhm_parse_dhmfile : option string -> sys extern -> Z * sys extern;
  (* mpi_read_string on my_dhm_P or my_dhm_G, radix 16 *)
  mpi_read_string : dhm_number -> sys extern -> Z * sys extern;
  ssl_cache_init : sys extern -> sys extern;
  entropy_init : sys extern -> sys extern;
  (* ctr_drbg_init with entropy_func_safe *)
  ctr_drbg_init : sys extern -> Z * sys extern
}.

(** What the start-up code writes with [mk_warn] and [mk_err]. *)
Inductive notice : Type :=
| warn (msg : string)
| err (msg : string).

Section Startup.
Context {P : Platform} {S : Settings} {C : Crypto P}.

(** [mk_api->str_build (&p, &len, "%s<name>", confdir)] *)
Definition str_build (confdir name : string) : string := String.append confdir name.

(** One turn of the loop over the sections of the file (tls.c:204). *)
Definition config_section (conf : polar_config) (section : mk_rconf_section)
  : polar_config :=
  if negb (strcasecmp (section_name section) "TLS" =? 0) then conf   (* continue *)
  else
    Build_polar_config
      (config_section_get_key section "CertificateFile")
      (config_section_get_key section "CertificateChainFile")
      (config_section_get_key section "RSAKeyFile")
      (config_section_get_key section "DHParameterFile").

(** The part of [config_parse] after the label [fallback]. *)
Definition config_fallback (confdir : string) (conf : polar_config) : polar_config :=
  Build_polar_config
    (match cert_file conf with
     | None => Some (str_build confdir "srv_cert.pem")
     | Some p => Some p
     end)
    (cert_chain_file conf)
    (match key_file conf with
     | None => Some (str_build confdir "rsa.pem")
     | Some p => Some p
     end)
    (match dh_param_file conf with
     | None => Some (str_build confdir "dhparam.pem")
     | Some p => Some p
     end).

(** tls.c:188. The result is the returned [int] and [*conf]. *)
Definition config_parse (confdir : string) (conf : polar_config) : Z * polar_config :=
  match config_create (str_build confdir "tls.conf") with
  | None => (0, config_fallback confdir conf)
  | Some sections => (0, config_fallback confdir (fold_left config_section sections conf))
  end.

(** The monad of the start-up code: the outside, the notices written so far,
    and [None] for a failed assertion or a NULL dereference. *)
Definition L (A : Type) : Type := sys extern -> option (A * sys extern * list notice).

Definition lret {A} (a : A) : L A := fun s => Some (a, s, []).

Definition lbind {A B} (m : L A) (f : A -> L B) : L B := fun s =>
  match m s with
  | None => None
  | Some (a, s1, n1) =>
      match f a s1 with
      | None => None
      | Some (b, s2, n2) => Some (b, s2, n1 ++ n2)
      end
  end.

Definition lcall {A} (f : sys extern -> A * sys extern) : L A := fun s =>
  Some (f s, []).

Definition ldo (f : sys extern -> sys extern) : L unit := fun s => Some (tt, f s, []).

Definition lnote (n : notice) : L unit := fun s => Some (tt, s, [n]).

Definition lassert (b : bool) : L unit := fun s => if b then Some (tt, s, []) else None.

End Startup.

Declare Scope load_scope.
Delimit Scope load_scope with load.
Notation "x <- m ;; k" := (lbind m (fun x => k))
  (at level 100, m at next level, right associativity, only parsing) : load_scope.
Notation "m ;;; k" := (lbind m (fun _ => k))
  (at level 100, right associativity, only parsing) : load_scope.

Section StartupCode.
Context {P : Platform} {S : Settings} {C : Crypto P}.
Local Open Scope load_scope.

(** tls.c:242 *)
Definition polar_load_certs (conf : polar_config) : L Z :=
  r <- lcall (x509_crt_parse_file own_cert (cert_file conf)) ;;
  if r <? 0 then
    lnote (warn "Load cert failed") ;;;
    if POLARSSL_CERTS_C then
      lnote (warn "Using test certificates, please set 'CertificateFile' in tls.conf") ;;;
      r <- lcall x509_crt_parse_test_srv_crt ;;
      if negb (r =? 0) then
        lnote (err "Load built-in cert failed") ;;;
        lret (-1)
      else lret 0
    else lret (-1)
  else
    match cert_chain_file conf with
    | Some chain =>
        r <- lcall (x509_crt_parse_file ca_cert_next (Some chain)) ;;
        (if negb (r =? 0) then lnote (warn "Load cert chain failed") else lret tt) ;;;
        lret 0
    | None => lret 0
    end.

(** tls.c:287. The first failure is only traced ([MK_TRACE]). *)
Definition polar_load_key (conf : polar_config) : L Z :=
  lassert (bool_decide (key_file conf <> None)) ;;;
  r <- lcall (pk_parse_keyfile (key_file conf)) ;;
  if r <? 0 then
    if POLARSSL_CERTS_C then
      r <- lcall pk_parse_test_srv_key ;;
      if negb (r =? 0) then
        lnote (err "Failed to load built-in RSA key") ;;;
        lret (-1)
      else lret 0
    else lret (-1)
  else lret 0.

(** tls.c:319 *)
Definition polar_load_dh_param (conf : polar_config) : L Z :=
  lassert (bool_decide (dh_param_file conf <> None)) ;;;
  r <- lcall (dhm_parse_dhmfile (dh_param_file conf)) ;;
  if r <? 0 then
    r <- lcall (mpi_read_string dhm_P) ;;
    if r <? 0 then
      lnote (err "Load DH parameter failed") ;;;
      lret (-1)
    else
      r <- lcall (mpi_read_string dhm_G) ;;
      if r <? 0 then
        lnote (err "Load DH parameter failed") ;;;
        lret (-1)
      else lret 0
  else lret 0.

(** tls.c:347. The thread-local key, the mutex and the list of threads of
    the server context are not part of the model. *)
Definition polar_init (conf : polar_config) : L Z :=
  ldo ssl_cache_init ;;;
  ldo entropy_init ;;;
  r <- polar_load_certs conf ;;
  if negb (r =? 0) then lret (-1)
  else
    r <- polar_load_dh_param conf ;;
    if negb (r =? 0) then lret (-1)
    else lret 0.

(** tls.c:725. The server context is allocated zeroed, so every path of its
    configuration starts as NULL; a NULL server context is dereferenced by
    [config_parse]. The result is the returned [int] and the configuration. *)
Definition mk_tls_plugin_init (confdir : string) : L (Z * polar_config) :=
  ok <- lcall (mem_alloc_z sizeof_polar_server_context) ;;
  lassert ok ;;;
  let cp := config_parse confdir (Build_polar_config None None None None) in
  let r := if negb (fst cp =? 0) then -1 else 0 in
  polar_init (snd cp) ;;;
  lret (r, snd cp).

End StartupCode.

Section WorkerCode.
Context {P : Platform} {S : Settings} {C : Crypto P}.
Local Open Scope tls_scope.

(** A step of the start-up code inside a worker: its errors go to the log. *)
Definition load {A} (m : L A) : M A := fun w =>
  match m (host w) with
  | None => Fault
  | Some (a, s, notes) =>
      Done a (Build_world (local_context w) s
                (trace w ++ omap (fun n => match n with
                                           | err msg => Some (ev_mk_err msg)
                                           | warn _ => None
                                           end) notes))
  end.

(** tls.c:372 *)
Definition polar_thread_init (conf : polar_config) : M Z :=
  ok <- sys_call (mem_alloc sizeof_polar_thread_context) ;;
  if negb ok then ret (-1)
  else
    (* thctx->contexts = NULL; the thread context is linked into the server's list *)
    r <- sys_call ctr_drbg_init ;;
    if negb (r =? 0) then
      mk_err "crt_drbg_init failed" ;;;
      ret (-1)
    else
      sys_call (fun s => (tt, pk_init s)) ;;;
      r <- load (polar_load_key conf) ;;
      if negb (r =? 0) then ret (-1)
      else
        set_contexts [] ;;;                      (* pthread_setspecific *)
        ret 0.

(** tls.c:741 *)
Definition mk_tls_worker_init (conf : polar_config) : M unit :=
  r <- polar_thread_init conf ;;
  if negb (r =? 0) then fault                    (* abort () *)
  else ret tt.

End WorkerCode.

(** The bound that keeps [mk_tls_send_file] within [file_count]: over the
    calls of one run, with [remain] bytes still to send, every [ssl_write]
    made while [remain] is positive is given at most [remain] bytes. *)
Fixpoint within_count (remain : Z) (tr : list event) : bool :=
  match tr with
  | [] => true
  | ev_ssl_write _ _ len r :: tr =>
      ((remain <=? 0) || (len <=? remain)) && within_count (remain - Z.max 0 r) tr
  | _ :: tr => within_count remain tr
  end.

(** ** The plaintext platform, continued

    A platform without memory, a configuration file and credential files to
    start up with. *)

Module PlainStart.

(** [Plain.platform] with an allocator that always returns NULL. *)
Definition platform_oom : Platform := {|
  session := list Byte.byte;
  extern := Plain.net;
  POLARSSL_ERR_NET_WANT_READ := -82;
  POLARSSL_ERR_NET_WANT_WRITE := -84;
  POLARSSL_ERR_SSL_CONN_EOF := -29312;
  EAGAIN := 11;
  SENDFILE_BUF_SIZE := 16384;
  sizeof_polar_context_head := 1024;
  ssl_init_server := Build_ssl_context None 0%N [];
  ssl_read := Plain.plain_ssl_read;
  ssl_write := Plain.plain_ssl_write;
  ssl_close_notify := fun c _ s => (0, c, s);
  ssl_session_reset := fun _ => Build_ssl_context None 0%N [];
  net_close := Plain.plain_net_close;
  pread := Plain.plain_pread;
  mem_alloc := fun _ s => (false, s)
|}.

Definition state_oom (l : list (@polar_context_head platform_oom))
  : @world platform_oom :=
  @Build_world platform_oom (Some (@Build_polar_thread_context platform_oom l))
               (Plain.start Plain.bytes8) [].

Definition bound_oom (d : Z) : @polar_context_head platform_oom :=
  @Build_polar_context_head platform_oom (Build_ssl_context None 0%N []) d.

Local Open Scope string_scope.

(** A section of a configuration file: its name and its keys. *)
Record section : Type := Build_section {
  sname : string;
  keys : list (string * string)
}.

Definition lower (c : Ascii.ascii) : Ascii.ascii :=
  let n := Ascii.nat_of_ascii c in
  if (Nat.leb 65 n && Nat.leb n 90)%bool then Ascii.ascii_of_nat (n + 32) else c.

Fixpoint lower_string (s : string) : string :=
  match s with
  | EmptyString => EmptyString
  | String c r => String (lower c) (lower_string r)
  end.

Definition plain_strcasecmp (a b : string) : Z :=
  if String.eqb (lower_string a) (lower_string b) then 0 else 1.

Definition get_key (s : section) (k : string) : option string :=
  snd <$> List.find (fun p => String.eqb (fst p) k) (keys s).

(** /etc/monkey/tls.conf: two sections named TLS, the second one last. *)
Definition conf_file : list section :=
  [Build_section "SERVER" [("Port", "443")];
   Build_section "tls" [("CertificateFile", "/old/cert.pem");
                        ("CertificateChainFile", "/old/chain.pem")];
   Build_section "TLS" [("CertificateFile", "/etc/ssl/cert.pem");
                        ("RSAKeyFile", "/etc/ssl/key.pem")];
   Build_section "LOG" []].

Definition plain_config_create (path : string) : option (list section) :=
  if String.eqb path "/etc/monkey/tls.conf" then Some conf_file else None.

Definition settings : Settings := {|
  mk_rconf_section := section;
  section_name := sname;
  config_create := plain_config_create;
  config_section_get_key := get_key;
  strcasecmp := plain_strcasecmp
|}.

(** The files PolarSSL can parse; any other path fails with a negative code. *)
Definition parses (path : option string) : Z :=
  match path with
  | Some p =>
      if (String.eqb p "/etc/ssl/cert.pem" || String.eqb p "/etc/ssl/key.pem")%bool
      then 0 else -15872
  | None => -15872
  end.

Definition crypto : Crypto Plain.platform := {|
  POLARSSL_CERTS_C := false;
  sizeof_polar_server_context := 4096;
  sizeof_polar_thread_context := 512;
  mem_alloc_z := fun _ s => (true, s);
  x509_crt_parse_file := fun _ path s => (parses path, s);
  x509_crt_parse_test_srv_crt := fun s => (0, s);
  pk_init := fun s => s;
  pk_parse_keyfile := fun path s => (parses path, s);
  pk_parse_test_srv_key := fun s => (0, s);
  dhm_parse_dhmfile := fun path s => (parses path, s);
  mpi_read_string := fun _ s => (0, s);
  ssl_cache_init := fun s => s;
  entropy_init := fun s => s;
  ctr_drbg_init := fun s => (0, s)
|}.

(** The outside at start-up, and a thread that is not a worker. *)
Definition boot : sys (@extern Plain.platform) := Plain.start [].

Definition no_thread : @world Plain.platform :=
  @Build_world Plain.platform None boot [].

(** The configuration [config_parse] builds from [conf_file]. *)
Definition parsed : polar_config :=
  Build_polar_config (Some "/etc/ssl/cert.pem") None (Some "/etc/ssl/key.pem")
                     (Some "/etc/monkey/dhparam.pem").

End PlainStart.

(** * Properties *)

Section MonadLaws.
Context {P : Platform}.

Lemma bind_Done {A B} (m : M A) (f : A -> M B) (w : world) (b : B) (w' : world) :
  bind m f w = Done b w' <->
  exists a w1, m w = Done a w1 /\ f a w1 = Done b w'.
Proof.
  unfold bind. split.
  - destruct (m w) as [a w1| |] eqn:Hm; try discriminate.
    intros Hf. exists a, w1. split; [reflexivity | exact Hf].
  - intros (a & w1 & Hm & Hf). rewrite Hm. exact Hf.
Qed.

Lemma bind_eq {A B} (m : M A) (f : A -> M B) (w : world) (a : A) (w1 : world) :
  m w = Done a w1 -> bind m f w = f a w1.
Proof. unfold bind. intros ->. reflexivity. Qed.

End MonadLaws.

Section PoolLemmas.
Context {P : Platform}.
Implicit Types (l : list polar_context_head) (d : Z) (k : nat).

Lemma context_scan_Some d l k :
  context_scan d l = Some k ->
  exists h, l !! k = Some h /\ fd h = d /\
            forall j h', (j < k)%nat -> l !! j = Some h' -> fd h' <> d.
Proof.
  revert k. induction l as [|a l IH]; intros k; simpl; [discriminate|].
  destruct (fd a =? d) eqn:E.
  - intros [= <-]. exists a. repeat split; [lia | intros j h' Hj; lia].
  - destruct (context_scan d l) as [k'|]; simpl; [|discriminate].
    intros [= <-]. destruct (IH k' eq_refl) as (h & Hk & Hd & Hlt).
    exists h. repeat split; [exact Hk | exact Hd |].
    intros [|j] h' Hj; simpl.
    + intros [= <-]. lia.
    + apply Hlt. lia.
Qed.

Lemma context_scan_None d l :
  context_scan d l = None -> forall k h, l !! k = Some h -> fd h <> d.
Proof.
  induction l as [|a l IH]; simpl; [intros _ k h; destruct k; discriminate|].
  destruct (fd a =? d) eqn:E; [discriminate|].
  destruct (context_scan d l) as [k'|]; simpl; [discriminate|].
  intros _ [|k] h; simpl.
  - intros [= <-]. lia.
  - apply IH. reflexivity.
Qed.

Lemma context_scan_first d l k h :
  l !! k = Some h -> fd h = d ->
  (forall j h', (j < k)%nat -> l !! j = Some h' -> fd h' <> d) ->
  context_scan d l = Some k.
Proof.
  revert k. induction l as [|a l IH]; intros k; [destruct k; discriminate|].
  destruct k as [|k]; simpl.
  - intros [= ->] Hd _. apply Z.eqb_eq in Hd. rewrite Hd. reflexivity.
  - intros Hk Hd Hlt.
    destruct (fd a =? d) eqn:E.
    + exfalso. apply (Hlt 0%nat a); [lia | reflexivity | lia].
    + rewrite (IH k Hk Hd); [reflexivity|].
      intros j h' Hj Hl. apply (Hlt (S j) h'); [lia | exact Hl].
Qed.

Lemma context_scan_lt d l k : context_scan d l = Some k -> (k < length l)%nat.
Proof.
  intros H. destruct (context_scan_Some _ _ _ H) as (h & Hk & _).
  eapply lookup_lt_Some. exact Hk.
Qed.

End PoolLemmas.

Ltac solve_io :=
  unfold io_result; rewrite ?Z.gtb_ltb;
  repeat match goal with
         | |- context [?a <? ?b] => destruct (Z.ltb_spec a b)
         | |- context [?a =? ?b] => destruct (Z.eqb_spec a b)
         end;
  first [reflexivity | lia | exfalso; lia | (exfalso; intuition lia)].

Section Translation.
Context {P : Platform}.

(** [handle_return] always returns; it touches nothing but [errno]. *)
Lemma handle_return_frame (e : Z) (w : world) :
  exists r w', handle_return e w = Done r w' /\
    local_context w' = local_context w /\
    outside (host w') = outside (host w) /\
    trace w' = trace w.
Proof.
  unfold handle_return.
  destruct (e <? 0); [|eexists _, _; split; [reflexivity | auto]].
  destruct ((e =? POLARSSL_ERR_NET_WANT_READ) || (e =? POLARSSL_ERR_NET_WANT_WRITE)).
  - unfold bind, get_errno. destruct (negb _); eexists _, _; (split; [reflexivity | auto]).
  - destruct (e =? POLARSSL_ERR_SSL_CONN_EOF); [eexists _, _; split; [reflexivity | auto]|].
    unfold bind, get_errno. destruct (_ =? _); eexists _, _; (split; [reflexivity | auto]).
Qed.

Lemma handle_return_translated (e : Z) (w : world) (r : Z) (w' : world) :
  headers_ok ->
  handle_return e w = Done r w' ->
  translated e r (errno (host w')).
Proof.
  intros (Hr & Hw & He & Her & Hew & Hag).
  unfold handle_return, translated.
  destruct (Z.ltb_spec e 0) as [Eneg|Eneg].
  - destruct (Z.eqb_spec e POLARSSL_ERR_NET_WANT_READ) as [Er|Er];
      [|destruct (Z.eqb_spec e POLARSSL_ERR_NET_WANT_WRITE) as [Ew|Ew];
        [|destruct (Z.eqb_spec e POLARSSL_ERR_SSL_CONN_EOF) as [Ee|Ee]]];
      cbn [orb]; unfold bind, get_errno, set_errno, ret;
      destruct (Z.eqb_spec (errno (host w)) EAGAIN) as [Eag|Eag];
      cbn [negb]; intros [= <- <-]; cbn [host errno];
      repeat split; intros; solve_io.
  - unfold ret. intros [= <- <-]. repeat split; intros; solve_io.
Qed.

End Translation.

(** ** The steps of the adapter, one by one *)

Tactic Notation "inv_bind" hyp(H) "as" ident(a) ident(w1) ident(H1) :=
  apply bind_Done in H; destruct H as (a & w1 & H1 & H).

Section Steps.
Context {P : Platform}.

Lemma pool_Some (w : world) (th : polar_thread_context) :
  local_context w = Some th -> pool w = contexts th.
Proof. unfold pool. intros ->. reflexivity. Qed.

Lemma context_get_eq (fd0 : Z) (w : world) :
  context_get fd0 w = Done (bound_context fd0 w) w.
Proof.
  unfold context_get, bound_context, pool, bind, local_thread_context, ret.
  destruct (local_context w); reflexivity.
Qed.

Lemma head_of_Done (ssl : option nat) (w : world) (h : polar_context_head) (w' : world) :
  head_of ssl w = Done h w' ->
  w' = w /\ exists i th, ssl = Some i /\ local_context w = Some th /\
                         contexts th !! i = Some h.
Proof.
  unfold head_of. destruct ssl as [i|]; [|discriminate].
  destruct (local_context w) as [th|]; [|discriminate].
  destruct (contexts th !! i) as [h'|] eqn:E; [|discriminate].
  intros [= <- <-]. split; [reflexivity|]. exists i, th. auto.
Qed.

Lemma head_of_eq (i : nat) (w : world) (h : polar_context_head) :
  pool w !! i = Some h -> head_of (Some i) w = Done h w.
Proof.
  unfold head_of, pool. destruct (local_context w) as [th|]; [|discriminate].
  intros ->. reflexivity.
Qed.

Lemma set_head_fd_eq (i : nat) (v : Z) (w : world) (h : polar_context_head) :
  pool w !! i = Some h ->
  set_head_fd (Some i) v w =
  Done tt (Build_world
             (Some (Build_polar_thread_context
                      (<[i := Build_polar_context_head (context h) v]> (pool w))))
             (host w) (trace w)).
Proof.
  intros Hi. unfold set_head_fd. rewrite (bind_eq _ _ _ _ _ (head_of_eq _ _ _ Hi)).
  unfold bind, local_thread_context, set_contexts.
  unfold pool in *. destruct (local_context w) as [th|]; [reflexivity | discriminate].
Qed.

Lemma engine_call_eq {R} (i : nat)
    (f : ssl_context session -> Z -> sys extern -> R * ssl_context session * sys extern)
    (ev : nat -> R -> event) (w : world) (h : polar_context_head) :
  pool w !! i = Some h ->
  engine_call (Some i) f ev w =
  Done (f (context h) (fd h) (host w)).1.1
       (Build_world
          (Some (Build_polar_thread_context
                   (<[i := Build_polar_context_head
                             (f (context h) (fd h) (host w)).1.2 (fd h)]> (pool w))))
          (f (context h) (fd h) (host w)).2
          (trace w ++ [ev i (f (context h) (fd h) (host w)).1.1])).
Proof.
  unfold engine_call, pool. destruct (local_context w) as [th|]; [|discriminate].
  intros ->. destruct (f (context h) (fd h) (host w)) as [[r c] s]. reflexivity.
Qed.

Lemma engine_call_Done {R} (ssl : option nat)
    (f : ssl_context session -> Z -> sys extern -> R * ssl_context session * sys extern)
    (ev : nat -> R -> event) (w : world) (r : R) (w' : world) :
  engine_call ssl f ev w = Done r w' ->
  exists i h, ssl = Some i /\ pool w !! i = Some h /\
    r = (f (context h) (fd h) (host w)).1.1 /\
    pool w' = <[i := Build_polar_context_head
                        (f (context h) (fd h) (host w)).1.2 (fd h)]> (pool w) /\
    host w' = (f (context h) (fd h) (host w)).2 /\
    trace w' = trace w ++ [ev i r].
Proof.
  intros H. destruct ssl as [i|]; [|discriminate].
  destruct (pool w !! i) as [h|] eqn:Hi.
  - rewrite (engine_call_eq _ _ _ _ _ Hi) in H. injection H as <- <-.
    exists i, h. repeat split; auto.
  - exfalso. unfold engine_call, pool in *.
    destruct (local_context w) as [th|]; [|discriminate].
    rewrite Hi in H. discriminate.
Qed.

(** [context_new] with a thread context: the first free entry is bound, or a
    new entry is appended, or the allocation fails and nothing changes but the
    outside. *)
Lemma context_new_eq (fd0 : Z) (w : world) (th : polar_thread_context) :
  local_context w = Some th ->
  context_new fd0 w =
  match context_scan (-1) (pool w) with
  | Some i =>
      match pool w !! i with
      | Some h =>
          Done (Some i)
               (Build_world
                  (Some (Build_polar_thread_context
                           (<[i := Build_polar_context_head (context h) fd0]> (pool w))))
                  (host w) (trace w))
      | None => Fault
      end
  | None =>
      if (mem_alloc sizeof_polar_context_head (host w)).1 then
        Done (Some (length (pool w)))
             (Build_world
                (Some (Build_polar_thread_context
                         (pool w ++ [Build_polar_context_head ssl_init_server fd0])))
                (mem_alloc sizeof_polar_context_head (host w)).2 (trace w))
      else
        Done None (Build_world (local_context w)
                               (mem_alloc sizeof_polar_context_head (host w)).2
                               (trace w))
  end.
Proof.
  intros Hth. rewrite (pool_Some _ _ Hth).
  unfold context_new, bind at 1, local_thread_context. rewrite Hth.
  destruct (context_scan (-1) (contexts th)) as [i|] eqn:Hs.
  - destruct (context_scan_Some _ _ _ Hs) as (h & Hi & _).
    rewrite Hi. unfold bind.
    rewrite (set_head_fd_eq i fd0 w h); [|rewrite (pool_Some _ _ Hth); exact Hi].
    rewrite (pool_Some _ _ Hth). reflexivity.
  - unfold bind, sys_call.
    destruct (mem_alloc sizeof_polar_context_head (host w)) as [[|] s];
      cbn; rewrite ?Hth; reflexivity.
Qed.

End Steps.

(** ** The pool: acquire, get, release *)

Section Pool.
Context {P : Platform}.

Lemma context_new_thread (fd0 : Z) (w : world) (ssl : option nat) (w1 : world) :
  context_new fd0 w = Done ssl w1 -> exists th, local_context w = Some th.
Proof.
  unfold context_new, bind at 1, local_thread_context.
  destruct (local_context w) as [th|]; [eauto | discriminate].
Qed.

(** What [context_new] leaves behind, case by case. *)
Lemma context_new_Done (fd0 : Z) (w : world) (ssl : option nat) (w1 : world) :
  context_new fd0 w = Done ssl w1 ->
  trace w1 = trace w /\
  ((exists i h, context_scan (-1) (pool w) = Some i /\ pool w !! i = Some h /\
                ssl = Some i /\ host w1 = host w /\
                pool w1 = <[i := Build_polar_context_head (context h) fd0]> (pool w)) \/
   (context_scan (-1) (pool w) = None /\ ssl = Some (length (pool w)) /\
    (mem_alloc sizeof_polar_context_head (host w)).1 = true /\
    pool w1 = pool w ++ [Build_polar_context_head ssl_init_server fd0]) \/
   (context_scan (-1) (pool w) = None /\ ssl = None /\
    (mem_alloc sizeof_polar_context_head (host w)).1 = false /\
    local_context w1 = local_context w)).
Proof.
  intros H. destruct (context_new_thread _ _ _ _ H) as [th Hth].
  rewrite (context_new_eq _ _ _ Hth) in H.
  destruct (context_scan (-1) (pool w)) as [i|] eqn:Hs.
  - destruct (pool w !! i) as [h|] eqn:Hi; [|discriminate].
    injection H as <- <-. split; [reflexivity|]. left. exists i, h. auto.
  - destruct (mem_alloc sizeof_polar_context_head (host w)).1 eqn:Hm;
      injection H as <- <-; (split; [reflexivity|]); right; [left | right]; auto.
Qed.

Lemma context_scan_insert_first (d : Z) (l : list polar_context_head) (i : nat)
    (c : ssl_context session) :
  (i < length l)%nat ->
  (forall j h, (j < i)%nat -> l !! j = Some h -> fd h <> d) ->
  context_scan d (<[i := Build_polar_context_head c d]> l) = Some i.
Proof.
  intros Hi Hlt.
  apply context_scan_first with (h := Build_polar_context_head c d).
  - apply list_lookup_insert_eq. exact Hi.
  - reflexivity.
  - intros j h' Hj. rewrite list_lookup_insert_ne by lia. apply Hlt. exact Hj.
Qed.

Lemma context_scan_app_last (d : Z) (l : list polar_context_head)
    (c : ssl_context session) :
  context_scan d l = None ->
  context_scan d (l ++ [Build_polar_context_head c d]) = Some (length l).
Proof.
  intros Hn.
  apply context_scan_first with (h := Build_polar_context_head c d).
  - rewrite lookup_app_r by lia. rewrite Nat.sub_diag. reflexivity.
  - reflexivity.
  - intros j h' Hj. rewrite lookup_app_l by lia.
    apply (context_scan_None _ _ Hn).
Qed.

(** C10 (amended): when no context is bound to [fd0] yet, which is the only
    situation in which the adapter calls acquire, [context_new fd0] followed by
    [context_get fd0] returns the very context [context_new] produced (and
    NULL again when the allocation of a new entry failed). *)
Theorem context_new_then_get (fd0 : Z) (w : world) (ssl : option nat) (w1 : world) :
  bound_context fd0 w = None ->
  context_new fd0 w = Done ssl w1 ->
  context_get fd0 w1 = Done ssl w1.
Proof.
  intros Hfree Hnew. rewrite context_get_eq. f_equal.
  unfold bound_context in *.
  destruct (context_new_Done _ _ _ _ Hnew) as
    (_ & [(i & h & Hs & Hi & -> & _ & ->) | [(Hs & -> & _ & ->) | (Hs & -> & _ & Hl)]]).
  - apply context_scan_insert_first.
    + eapply lookup_lt_Some. exact Hi.
    + intros j h' _. apply (context_scan_None _ _ Hfree).
  - apply context_scan_app_last. exact Hfree.
  - unfold pool. rewrite Hl. exact Hfree.
Qed.

End Pool.

Section Release.
Context {P : Platform}.

Lemma context_unset_bound (fd0 : Z) (i : nat) (w : world) (h : polar_context_head) :
  pool w !! i = Some h -> fd h = fd0 ->
  context_unset fd0 (Some i) w =
  Done 0 (Build_world
            (Some (Build_polar_thread_context
               (<[i := Build_polar_context_head (ssl_session_reset (context h)) (-1)]>
                  (pool w))))
            (host w)
            (trace w ++ [ev_ssl_session_reset i])).
Proof.
  intros Hi Hfd. unfold context_unset.
  rewrite (bind_eq _ _ _ _ _ (head_of_eq _ _ _ Hi)).
  apply Z.eqb_eq in Hfd. rewrite Hfd.
  unfold bind at 1. unfold bind at 1.
  rewrite (set_head_fd_eq _ _ _ _ Hi).
  erewrite engine_call_eq.
  2:{ cbn. apply list_lookup_insert_eq. eapply lookup_lt_Some. exact Hi. }
  cbn. rewrite list_insert_insert_eq. reflexivity.
Qed.

Lemma context_unset_other (fd0 : Z) (i : nat) (w : world) (h : polar_context_head) :
  pool w !! i = Some h -> fd h <> fd0 ->
  context_unset fd0 (Some i) w =
  Done 0 (Build_world (local_context w) (host w)
                      (trace w ++ [ev_mk_err "Context already unset."])).
Proof.
  intros Hi Hfd. unfold context_unset.
  rewrite (bind_eq _ _ _ _ _ (head_of_eq _ _ _ Hi)).
  apply Z.eqb_neq in Hfd. rewrite Hfd. reflexivity.
Qed.

(** C6: [context_unset fd0 ssl] on a live entry. When the entry is bound to
    [fd0] it is marked free ([fd] becomes -1) and its session is reset by the
    engine; when it is not, one error line is logged and the list, the entry
    and the outside stay exactly as they were. Both ways the call returns 0. *)
Theorem context_unset_spec (fd0 : Z) (i : nat) (w : world) (h : polar_context_head) :
  pool w !! i = Some h ->
  (fd h = fd0 ->
   context_unset fd0 (Some i) w =
   Done 0 (Build_world
             (Some (Build_polar_thread_context
                (<[i := Build_polar_context_head (ssl_session_reset (context h)) (-1)]>
                   (pool w))))
             (host w)
             (trace w ++ [ev_ssl_session_reset i]))) /\
  (fd h <> fd0 ->
   context_unset fd0 (Some i) w =
   Done 0 (Build_world (local_context w) (host w)
                       (trace w ++ [ev_mk_err "Context already unset."]))).
Proof.
  intros Hi. split; intros Hfd.
  - exact (context_unset_bound fd0 i w h Hi Hfd).
  - exact (context_unset_other fd0 i w h Hi Hfd).
Qed.

End Release.

Section Close.
Context {P : Platform}.

Lemma net_close_call_eq (fd0 : Z) (w : world) :
  net_close_call fd0 w =
  Done tt (Build_world (local_context w) (net_close fd0 (host w))
                       (trace w ++ [ev_net_close fd0])).
Proof. reflexivity. Qed.

Lemma mk_tls_close_bound (fd0 : Z) (w : world) (i : nat) :
  bound_context fd0 w = Some i ->
  exists h, pool w !! i = Some h /\ fd h = fd0 /\
    mk_tls_close fd0 w =
    Done 0 (Build_world
              (Some (Build_polar_thread_context
                 (<[i := Build_polar_context_head
                           (ssl_session_reset
                              (ssl_close_notify (context h) fd0 (host w)).1.2) (-1)]>
                    (pool w))))
              (net_close fd0 (ssl_close_notify (context h) fd0 (host w)).2)
              (trace w ++ [ev_ssl_close_notify i
                             (ssl_close_notify (context h) fd0 (host w)).1.1;
                           ev_ssl_session_reset i; ev_net_close fd0])).
Proof.
  intros Hb. unfold mk_tls_close.
  rewrite (bind_eq _ _ _ _ _ (context_get_eq fd0 w)). rewrite Hb.
  destruct (context_scan_Some _ _ _ Hb) as (h & Hi & Hfd & _).
  exists h. split; [exact Hi|]. split; [exact Hfd|].
  unfold bind at 1. unfold bind at 1.
  rewrite (engine_call_eq _ _ _ _ _ Hi). rewrite Hfd.
  unfold bind at 1.
  erewrite context_unset_bound with (h := Build_polar_context_head _ fd0).
  2:{ cbn. apply list_lookup_insert_eq. eapply lookup_lt_Some. exact Hi. }
  2: reflexivity.
  cbn. rewrite list_insert_insert_eq. rewrite <- !app_assoc. reflexivity.
Qed.

Lemma mk_tls_close_unbound (fd0 : Z) (w : world) :
  bound_context fd0 w = None ->
  mk_tls_close fd0 w =
  Done 0 (Build_world (local_context w) (net_close fd0 (host w))
                      (trace w ++ [ev_net_close fd0])).
Proof.
  intros Hb. unfold mk_tls_close.
  rewrite (bind_eq _ _ _ _ _ (context_get_eq fd0 w)). rewrite Hb. reflexivity.
Qed.

(** C8: [mk_tls_close fd0] always returns 0 and its last call is
    [net_close fd0]. When a context is bound to [fd0] the engine is first asked
    to send the close notification, whose result [r] is dropped, and the
    context is released (its [fd] becomes -1, its session is reset); when none
    is bound, [net_close] is the only call, no error is logged and the list is
    untouched. *)
Theorem mk_tls_close_spec (fd0 : Z) (w : world) :
  match bound_context fd0 w with
  | Some i =>
      exists h, pool w !! i = Some h /\ fd h = fd0 /\
        let r := (ssl_close_notify (context h) fd0 (host w)).1.1 in
        let c := (ssl_close_notify (context h) fd0 (host w)).1.2 in
        let s := (ssl_close_notify (context h) fd0 (host w)).2 in
        mk_tls_close fd0 w =
        Done 0 (Build_world
                  (Some (Build_polar_thread_context
                     (<[i := Build_polar_context_head (ssl_session_reset c) (-1)]>
                        (pool w))))
                  (net_close fd0 s)
                  (trace w ++ [ev_ssl_close_notify i r; ev_ssl_session_reset i;
                               ev_net_close fd0]))
  | None =>
      mk_tls_close fd0 w =
      Done 0 (Build_world (local_context w) (net_close fd0 (host w))
                          (trace w ++ [ev_net_close fd0]))
  end.
Proof.
  destruct (bound_context fd0 w) as [i|] eqn:Hb.
  - exact (mk_tls_close_bound fd0 w i Hb).
  - exact (mk_tls_close_unbound fd0 w Hb).
Qed.

End Close.

Section Reuse.
Context {P : Platform}.

Lemma context_scan_le (d : Z) (l : list polar_context_head) (i : nat)
    (h : polar_context_head) :
  l !! i = Some h -> fd h = d ->
  exists k, context_scan d l = Some k /\ (k <= i)%nat.
Proof.
  intros Hi Hd. destruct (context_scan d l) as [k|] eqn:Hs.
  - exists k. split; [reflexivity|].
    destruct (context_scan_Some _ _ _ Hs) as (_ & _ & _ & Hlt).
    destruct (le_lt_dec k i) as [Hle|Hgt]; [exact Hle|].
    exfalso. exact (Hlt i h Hgt Hi Hd).
  - exfalso. exact (context_scan_None _ _ Hs i h Hi Hd).
Qed.

(** The entry [context_new] returns is bound to the descriptor, and no entry
    before it is free. *)
Lemma context_new_Some (fd0 : Z) (w : world) (i : nat) (w1 : world) :
  context_new fd0 w = Done (Some i) w1 ->
  exists h, pool w1 !! i = Some h /\ fd h = fd0 /\
    forall j h', (j < i)%nat -> pool w1 !! j = Some h' -> fd h' <> -1.
Proof.
  intros H.
  destruct (context_new_Done _ _ _ _ H) as
    (_ & [(i' & h & Hs & Hi & [= <-] & _ & ->) | [(Hs & [= ->] & _ & ->) | (_ & [=] & _)]]).
  - exists (Build_polar_context_head (context h) fd0).
    split; [apply list_lookup_insert_eq; eapply lookup_lt_Some; exact Hi|].
    split; [reflexivity|].
    intros j h' Hj. rewrite list_lookup_insert_ne by lia.
    destruct (context_scan_Some _ _ _ Hs) as (_ & _ & _ & Hlt). apply Hlt. exact Hj.
  - exists (Build_polar_context_head ssl_init_server fd0).
    split; [rewrite lookup_app_r by lia; rewrite Nat.sub_diag; reflexivity|].
    split; [reflexivity|].
    intros j h' Hj. rewrite lookup_app_l by lia. apply (context_scan_None _ _ Hs).
Qed.

(** C7: after [context_new fd1] produced a context, [mk_tls_close fd1]
    followed by [context_new fd2] leaves the list as long as it was after the
    first acquire: the entry the close released (the one [context_get fd1]
    found) is the entry the second acquire returns, now bound to [fd2]. *)
Theorem freed_slot_reused (fd1 fd2 : Z) (w : world) (i : nat) (w1 : world) :
  context_new fd1 w = Done (Some i) w1 ->
  exists w2 k w3,
    mk_tls_close fd1 w1 = Done 0 w2 /\
    bound_context fd1 w1 = Some k /\
    context_new fd2 w2 = Done (Some k) w3 /\
    length (pool w3) = length (pool w1) /\
    exists h, pool w3 !! k = Some h /\ fd h = fd2.
Proof.
  intros Hnew.
  destruct (context_new_Some _ _ _ _ Hnew) as (hi & Hi & Hfd & Hbefore).
  destruct (context_scan_le fd1 (pool w1) i hi Hi Hfd) as (k & Hk & Hle).
  destruct (mk_tls_close_bound fd1 w1 k Hk) as (hk & Hhk & Hfdk & Hclose).
  eexists _, k, _. split; [exact Hclose|]. split; [exact Hk|].
  assert (Hlen : (k < length (pool w1))%nat) by (eapply lookup_lt_Some; exact Hhk).
  erewrite context_new_eq by reflexivity. cbn [pool local_context contexts].
  rewrite context_scan_insert_first.
  2: exact Hlen.
  2:{ intros j h' Hj. apply Hbefore. lia. }
  rewrite list_lookup_insert_eq by exact Hlen.
  split; [reflexivity|]. cbn [pool local_context contexts context].
  rewrite !length_insert. split; [reflexivity|].
  eexists. split; [apply list_lookup_insert_eq; rewrite length_insert; exact Hlen|].
  reflexivity.
Qed.

End Reuse.

(** ** Read and write *)

Section ReadWrite.
Context {P : Platform}.

Lemma to_int_small (z : Z) : - 2 ^ 31 <= z <= INT_MAX -> to_int z = z.
Proof.
  unfold to_int, wrap_signed, INT_MAX. intros H.
  change (2 ^ (32 - 1)) with (2 ^ 31). rewrite Z.mod_small; lia.
Qed.

Lemma handle_return_nonneg (e : Z) (w : world) :
  0 <= e -> handle_return e w = Done e w.
Proof.
  intros H. unfold handle_return.
  destruct (Z.ltb_spec e 0); [lia | reflexivity].
Qed.

Lemma handle_return_nonpos (e : Z) (w : world) (r : Z) (w' : world) :
  e <= 0 -> handle_return e w = Done r w' -> r <= 0.
Proof.
  intros He. unfold handle_return.
  destruct (Z.ltb_spec e 0).
  - destruct (_ || _).
    + unfold bind, get_errno, set_errno, ret. destruct (negb _); intros [= <- _]; lia.
    + destruct (_ =? _); [intros [= <- _]; lia|].
      unfold bind, get_errno, set_errno, ret. destruct (_ =? _); intros [= <- _]; lia.
  - intros [= <- _]. lia.
Qed.

Lemma handle_return_pool (e : Z) (w : world) (r : Z) (w' : world) :
  handle_return e w = Done r w' -> pool w' = pool w /\ trace w' = trace w.
Proof.
  intros H. destruct (handle_return_frame e w) as (r1 & w1 & H1 & Hl & _ & Ht).
  rewrite H in H1. injection H1 as <- <-. unfold pool. rewrite Hl. auto.
Qed.

Lemma context_get_or_new_trace (fd0 : Z) (w : world) (ssl : option nat) (w1 : world) :
  context_get_or_new fd0 w = Done ssl w1 -> trace w1 = trace w.
Proof.
  unfold context_get_or_new. rewrite (bind_eq _ _ _ _ _ (context_get_eq fd0 w)).
  destruct (bound_context fd0 w).
  - intros [= <- <-]. reflexivity.
  - intros H. apply (context_new_Done _ _ _ _ H).
Qed.

(** The run of a [mk_tls_read] that returns: one [ssl_read] on a context [i],
    its result [e] passed through [handle_return], and the adjustment by the
    bytes the engine still holds for that context. *)
Lemma mk_tls_read_Done (fd0 count : Z) (w : world) (r : Z) (buf : list Byte.byte)
    (w' : world) :
  mk_tls_read fd0 count w = Done (r, buf) w' ->
  exists i e h r0 w2,
    trace w' = trace w ++ [ev_ssl_read i count e] /\
    pool w' !! i = Some h /\
    handle_return e w2 = Done r0 w' /\
    r = (if r0 >? 0 then
           if (0 <? polar_get_bytes_avail (context h))%N
           then to_int (r0 + Z.of_N (polar_get_bytes_avail (context h)))
           else r0
         else r0).
Proof.
  unfold mk_tls_read. intros H.
  inv_bind H as ssl w1 Hssl. inv_bind H as rd w2 Hrd. cbv zeta in H.
  inv_bind H as r0 w3 Hret.
  apply context_get_or_new_trace in Hssl.
  destruct (engine_call_Done _ _ _ _ _ _ Hrd) as (i & h & -> & Hi & He & Hp & _ & Ht).
  destruct (handle_return_pool _ _ _ _ Hret) as [Hp3 Ht3].
  assert (Hi3 : pool w3 !! i =
                Some (Build_polar_context_head
                        (ssl_read (context h) (fd h) count (host w1)).1.2 (fd h))).
  { rewrite Hp3, Hp. apply list_lookup_insert_eq. eapply lookup_lt_Some. exact Hi. }
  destruct (r0 >? 0) eqn:Hpos.
  - inv_bind H as h3 w4 Hh.
    destruct (head_of_Done _ _ _ _ Hh) as (-> & i' & th & [= <-] & Hth & Hl).
    rewrite <- (pool_Some _ _ Hth) in Hl. rewrite Hi3 in Hl. injection Hl as <-.
    cbn [context] in H.
    assert (Hw : w3 = w').
    { destruct (0 <? _)%N; injection H as _ _ <-; reflexivity. }
    subst w'. eexists i, (fst rd), _, r0, w2.
    split; [rewrite Ht3, Ht, Hssl; reflexivity|].
    split; [exact Hi3|]. split; [exact Hret|].
    rewrite Hpos. cbn [context].
    destruct (0 <? _)%N; injection H as <- _; reflexivity.
  - injection H as <- <- <-.
    eexists i, (fst rd), _, r0, w2.
    split; [rewrite Ht3, Ht, Hssl; reflexivity|].
    split; [exact Hi3|]. split; [exact Hret|].
    rewrite Hpos. reflexivity.
Qed.

(** C2: when [mk_tls_read] returns and its [ssl_read] delivered [e > 0] bytes,
    the returned count is [e] plus the plaintext the engine still holds for
    that context after the call ([polar_get_bytes_avail], zero when nothing is
    buffered), as long as the sum is a value of [int]. *)
Theorem mk_tls_read_reports_buffered (fd0 count : Z) (w : world) (r : Z)
    (buf : list Byte.byte) (w' : world) :
  mk_tls_read fd0 count w = Done (r, buf) w' ->
  exists i e h,
    trace w' = trace w ++ [ev_ssl_read i count e] /\
    pool w' !! i = Some h /\
    (0 < e ->
     e + Z.of_N (polar_get_bytes_avail (context h)) <= INT_MAX ->
     r = e + Z.of_N (polar_get_bytes_avail (context h))).
Proof.
  intros H.
  destruct (mk_tls_read_Done _ _ _ _ _ _ H) as (i & e & h & r0 & w2 & Ht & Hi & Hr & ->).
  exists i, e, h. split; [exact Ht|]. split; [exact Hi|].
  intros He Hmax. rewrite handle_return_nonneg in Hr by lia. injection Hr as <- _.
  destruct (Z.gtb_spec e 0); [|lia].
  destruct (N.ltb_spec 0 (polar_get_bytes_avail (context h))).
  - apply to_int_small. lia.
  - lia.
Qed.

End ReadWrite.

Section Write.
Context {P : Platform}.

Lemma mk_tls_write_Done (fd0 : Z) (buf : list Byte.byte) (count : Z) (w : world)
    (r : Z) (w' : world) :
  mk_tls_write fd0 buf count w = Done r w' ->
  exists i e w2,
    trace w' = trace w ++ [ev_ssl_write i buf count e] /\
    handle_return e w2 = Done r w'.
Proof.
  unfold mk_tls_write. intros H.
  inv_bind H as ssl w1 Hssl. inv_bind H as e w2 He.
  apply context_get_or_new_trace in Hssl.
  destruct (engine_call_Done _ _ _ _ _ _ He) as (i & h & -> & _ & _ & _ & _ & Ht).
  destruct (handle_return_pool _ _ _ _ H) as [_ Ht3].
  exists i, e, w2. split; [rewrite Ht3, Ht, Hssl; reflexivity | exact H].
Qed.

(** C3 (amended): the engine's result is translated by [handle_return], in
    the same way for reads and writes: a want-read or want-write result becomes
    -1 with [errno = EAGAIN] (WouldBlock), the end of the connection becomes 0
    (Eof), any other negative result becomes -1 with another [errno] (Error),
    and a result that is not negative is returned as it is. With its context
    found, [mk_tls_write] makes one [ssl_write] on it and returns the
    translation of what that call returned. [mk_tls_read] makes one [ssl_read]
    and returns the translation of its result when that is not positive or when
    the engine holds no further plaintext; a positive result with plaintext
    still held is returned increased by the number of bytes held. *)
Theorem engine_result_translation :
  headers_ok ->
  (forall e w, exists r w',
      handle_return e w = Done r w' /\ translated e r (errno (host w'))) /\
  (forall fd0 buf count w i w1 h,
      context_get_or_new fd0 w = Done (Some i) w1 ->
      pool w1 !! i = Some h ->
      let call := ssl_write (context h) (fd h) buf count (host w1) in
      exists r w',
        mk_tls_write fd0 buf count w = Done r w' /\
        trace w' = trace w ++ [ev_ssl_write i buf count call.1.1] /\
        pool w' = <[i := Build_polar_context_head call.1.2 (fd h)]> (pool w1) /\
        outside (host w') = outside call.2 /\
        translated call.1.1 r (errno (host w'))) /\
  (forall fd0 count w i w1 h,
      context_get_or_new fd0 w = Done (Some i) w1 ->
      pool w1 !! i = Some h ->
      let call := ssl_read (context h) (fd h) count (host w1) in
      let e := call.1.1.1 in
      let avail := polar_get_bytes_avail call.1.2 in
      exists r w',
        mk_tls_read fd0 count w = Done (r, call.1.1.2) w' /\
        trace w' = trace w ++ [ev_ssl_read i count e] /\
        pool w' = <[i := Build_polar_context_head call.1.2 (fd h)]> (pool w1) /\
        outside (host w') = outside call.2 /\
        (e <= 0 \/ avail = 0%N -> translated e r (errno (host w'))) /\
        (0 < e -> (0 < avail)%N -> r = to_int (e + Z.of_N avail))).
Proof.
  intros Hok. split; [|split].
  - intros e w. destruct (handle_return_frame e w) as (r & w' & H & _).
    exists r, w'. split; [exact H|]. exact (handle_return_translated _ _ _ _ Hok H).
  - intros fd0 buf count w i w1 h Hssl Hi. cbv zeta.
    pose proof (context_get_or_new_trace _ _ _ _ Hssl) as Ht.
    unfold mk_tls_write. rewrite (bind_eq _ _ _ _ _ Hssl).
    rewrite (bind_eq _ _ _ _ _ (engine_call_eq _ _ _ _ _ Hi)).
    match goal with
    | |- context [handle_return ?e ?w2] =>
        destruct (handle_return_frame e w2) as (r & w' & Hr & Hl & Ho & Htr)
    end.
    exists r, w'. split; [exact Hr|].
    split; [rewrite Htr; cbn [trace]; rewrite Ht; reflexivity|].
    split; [unfold pool at 1; rewrite Hl; reflexivity|].
    split; [exact Ho|].
    exact (handle_return_translated _ _ _ _ Hok Hr).
  - intros fd0 count w i w1 h Hssl Hi. cbv zeta.
    pose proof (context_get_or_new_trace _ _ _ _ Hssl) as Ht.
    unfold mk_tls_read. rewrite (bind_eq _ _ _ _ _ Hssl).
    rewrite (bind_eq _ _ _ _ _ (engine_call_eq _ _ _ _ _ Hi)). cbv zeta.
    set (call := ssl_read (context h) (fd h) count (host w1)).
    set (w2 := Build_world
                 (Some (Build_polar_thread_context
                          (<[i := Build_polar_context_head call.1.2 (fd h)]> (pool w1))))
                 call.2 (trace w1 ++ [ev_ssl_read i count call.1.1.1])).
    assert (Hi2 : pool w2 !! i = Some (Build_polar_context_head call.1.2 (fd h))).
    { cbn. apply list_lookup_insert_eq. eapply lookup_lt_Some. exact Hi. }
    destruct (Z.lt_ge_cases 0 call.1.1.1) as [Hpos|Hle].
    + rewrite (bind_eq _ _ _ _ _ (handle_return_nonneg _ w2 (Z.lt_le_incl _ _ Hpos))).
      destruct (Z.gtb_spec call.1.1.1 0) as [_|Hc]; [|lia].
      rewrite (bind_eq _ _ _ _ _ (head_of_eq _ _ _ Hi2)). cbn [context].
      pose proof (handle_return_translated _ _ _ _ Hok
                    (handle_return_nonneg _ w2 (Z.lt_le_incl _ _ Hpos))) as Htr.
      destruct (N.ltb_spec 0 (polar_get_bytes_avail call.1.2)) as [Hav|Hav].
      * eexists _, _. split; [reflexivity|].
        split; [unfold w2; cbn [trace]; rewrite Ht; reflexivity|].
        split; [reflexivity|]. split; [reflexivity|].
        split; [intros [Hc|Hc]; [lia | rewrite Hc in Hav; lia] | reflexivity].
      * eexists _, _. split; [reflexivity|].
        split; [unfold w2; cbn [trace]; rewrite Ht; reflexivity|].
        split; [reflexivity|]. split; [reflexivity|].
        split; [intros _; exact Htr | intros _ Hc; lia].
    + destruct (handle_return_frame call.1.1.1 w2) as (r & w' & Hr & Hl & Ho & Htr).
      rewrite (bind_eq _ _ _ _ _ Hr).
      pose proof (handle_return_nonpos _ _ _ _ Hle Hr) as Hrle.
      destruct (Z.gtb_spec r 0) as [Hc|_]; [lia|].
      exists r, w'. split; [reflexivity|].
      split; [rewrite Htr; unfold w2; cbn [trace]; rewrite Ht; reflexivity|].
      split; [unfold pool at 1; rewrite Hl; reflexivity|].
      split; [exact Ho|].
      split; [intros _; exact (handle_return_translated _ _ _ _ Hok Hr) | intros Hc; lia].
Qed.

(** ** Vectored write *)

Lemma iov_copy_concat (l : list (list Byte.byte)) (buf : list Byte.byte) (used : Z) :
  iov_copy l buf used = (buf ++ concat l, used + Z.of_nat (length (concat l))).
Proof.
  revert buf used. induction l as [|b l IH]; intros buf used; simpl.
  - rewrite app_nil_r, Z.add_0_r. reflexivity.
  - rewrite IH, <- app_assoc, length_app. f_equal. lia.
Qed.

Lemma context_get_or_new_Some (fd0 : Z) (w : world) (i : nat) (w1 : world) :
  context_get_or_new fd0 w = Done (Some i) w1 ->
  exists h, pool w1 !! i = Some h /\ fd h = fd0.
Proof.
  unfold context_get_or_new. rewrite (bind_eq _ _ _ _ _ (context_get_eq fd0 w)).
  destruct (bound_context fd0 w) as [k|] eqn:Hb.
  - intros [= <- <-]. destruct (context_scan_Some _ _ _ Hb) as (h & Hk & Hfd & _).
    exists h. auto.
  - intros H. destruct (context_new_Some _ _ _ _ H) as (h & Hi & Hfd & _).
    exists h. auto.
Qed.

(** C9: with a context for [fd0] and the scratch buffer allocated,
    [mk_tls_writev] returns after exactly one call of the engine: [ssl_write]
    on that context with the concatenation of the buffers in order and its
    whole length. The context and the outside are afterwards what that call
    left, and the value returned is [handle_return] of its result. So whatever
    [ssl_write] conveys of the bytes it accepts, the bytes conveyed by the
    call are a prefix of the concatenation, and all of it when [ssl_write]
    accepted the whole length. *)
Theorem mk_tls_writev_concat (fd0 : Z) (mk_io : mk_iov) (w : world) (i : nat)
    (w1 : world) (h : polar_context_head) :
  mk_iov_wf mk_io ->
  context_get_or_new fd0 w = Done (Some i) w1 ->
  pool w1 !! i = Some h ->
  (mem_alloc (total_len mk_io) (host w1)).1 = true ->
  let s := (mem_alloc (total_len mk_io) (host w1)).2 in
  let call := ssl_write (context h) (fd h) (concat (io mk_io)) (total_len mk_io) s in
  exists r w',
    mk_tls_writev fd0 mk_io w = Done r w' /\
    trace w' = trace w ++
               [ev_ssl_write i (concat (io mk_io)) (total_len mk_io) call.1.1] /\
    total_len mk_io = Z.of_nat (length (concat (io mk_io))) /\
    pool w' = <[i := Build_polar_context_head call.1.2 (fd h)]> (pool w1) /\
    outside (host w') = outside call.2 /\
    handle_return call.1.1
      (Build_world (Some (Build_polar_thread_context
                      (<[i := Build_polar_context_head call.1.2 (fd h)]> (pool w1))))
                   call.2
                   (trace w ++
                    [ev_ssl_write i (concat (io mk_io)) (total_len mk_io) call.1.1])) =
    Done r w' /\
    forall conveyed : extern -> list Byte.byte,
      (forall c bio buf len s0,
          conveyed (outside (ssl_write c bio buf len s0).2) =
          conveyed (outside s0) ++ take (Z.to_nat (ssl_write c bio buf len s0).1.1) buf) ->
      conveyed (outside (host w')) =
      conveyed (outside s) ++ take (Z.to_nat call.1.1) (concat (io mk_io)) /\
      (call.1.1 = total_len mk_io ->
       r = total_len mk_io /\
       conveyed (outside (host w')) = conveyed (outside s) ++ concat (io mk_io)).
Proof.
  intros [Hidx Hlen] Hssl Hi Halloc. cbv zeta.
  pose proof (context_get_or_new_trace _ _ _ _ Hssl) as Ht.
  unfold mk_tls_writev. cbv zeta.
  rewrite (bind_eq _ _ _ _ _ Hssl).
  unfold bind at 1, sys_call.
  destruct (mem_alloc (total_len mk_io) (host w1)) as [ok s] eqn:Hm.
  cbn [fst snd] in *. subst ok. cbn [negb].
  rewrite Hidx, Nat2Z.id, firstn_all, iov_copy_concat.
  cbn [app]. rewrite Z.add_0_l, <- Hlen, Z.eqb_refl. cbn [negb].
  set (call := ssl_write (context h) (fd h) (concat (io mk_io)) (total_len mk_io) s).
  match goal with
  | |- context [bind (engine_call (Some i) ?f ?ev) _ ?w2] =>
      pose proof (engine_call_eq i f ev w2 h Hi) as Hcall
  end.
  cbn [host trace] in Hcall. fold call in Hcall.
  rewrite (bind_eq _ _ _ _ _ Hcall). rewrite Ht.
  match goal with
  | |- context [handle_return ?e ?w2] =>
      destruct (handle_return_frame e w2) as (r & w' & Hr & Hl & Ho & Htr)
  end.
  cbn [pool local_context contexts host trace] in *.
  exists r, w'. split; [exact Hr|]. split; [exact Htr|]. split; [reflexivity|].
  split; [unfold pool; rewrite Hl; reflexivity|]. split; [exact Ho|].
  split; [exact Hr|].
  intros conveyed Hlaw.
  assert (Hconv : conveyed (outside (host w')) =
                  conveyed (outside s) ++ take (Z.to_nat call.1.1) (concat (io mk_io))).
  { rewrite Ho. apply Hlaw. }
  split; [exact Hconv|]. intros Hall. split.
  - rewrite handle_return_nonneg in Hr by (rewrite Hall, Hlen; lia).
    injection Hr as <- _. exact Hall.
  - rewrite Hconv, Hall, Hlen, Nat2Z.id, firstn_all. reflexivity.
Qed.

End Write.

(** ** One context per descriptor *)

Section Invariant.
Context {P : Platform}.

Lemma stable_ret {A} (a : A) : stable (ret a).
Proof. intros w a' w' [= _ <-]. reflexivity. Qed.

Lemma stable_bind {A B} (m : M A) (f : A -> M B) :
  stable m -> (forall a, stable (f a)) -> stable (bind m f).
Proof.
  intros Hm Hf w b w' H. inv_bind H as a w1 Ha.
  rewrite (Hf _ _ _ _ H). exact (Hm _ _ _ Ha).
Qed.

Lemma stable_same_context {A} (m : M A) :
  (forall w a w', m w = Done a w' -> local_context w' = local_context w) ->
  stable m.
Proof. intros Hm w a w' H. unfold fds, pool. rewrite (Hm _ _ _ H). reflexivity. Qed.

Lemma stable_log (e : event) : stable (log e).
Proof. apply stable_same_context. intros w a w' [= _ <-]. reflexivity. Qed.

Lemma stable_sys_call {R} (f : sys extern -> R * sys extern) : stable (sys_call f).
Proof.
  apply stable_same_context. intros w a w'. unfold sys_call.
  destruct (f (host w)). intros [= _ <-]. reflexivity.
Qed.

Lemma stable_handle_return (e : Z) : stable (handle_return e).
Proof.
  intros w r w' H. unfold fds. destruct (handle_return_pool _ _ _ _ H) as [-> _].
  reflexivity.
Qed.

Lemma stable_head_of (ssl : option nat) : stable (head_of ssl).
Proof. intros w h w' H. destruct (head_of_Done _ _ _ _ H) as [-> _]. reflexivity. Qed.

Lemma stable_engine_call {R} (ssl : option nat)
    (f : ssl_context session -> Z -> sys extern -> R * ssl_context session * sys extern)
    (ev : nat -> R -> event) :
  stable (engine_call ssl f ev).
Proof.
  intros w r w' H.
  destruct (engine_call_Done _ _ _ _ _ _ H) as (i & h & _ & Hi & _ & Hp & _).
  unfold fds. rewrite Hp, list_fmap_insert. cbn [fd].
  apply list_insert_id. rewrite list_lookup_fmap, Hi. reflexivity.
Qed.

Lemma stable_pread_call (file_fd count offset : Z) :
  stable (pread_call file_fd count offset).
Proof.
  unfold pread_call. apply stable_bind; [apply stable_sys_call|]. intros r.
  apply stable_bind; [apply stable_log|]. intros _. apply stable_ret.
Qed.

Lemma stable_send_file_loop (fuel : nat) (ssl : option nat)
    (file_fd remain sent file_offset : Z) :
  stable (send_file_loop fuel ssl file_fd remain sent file_offset).
Proof.
  revert remain sent file_offset.
  induction fuel as [|fuel IH]; intros remain sent file_offset; simpl.
  - intros w a w' H. discriminate.
  - apply stable_bind; [apply stable_pread_call|]. intros rd. cbv zeta.
    apply stable_bind.
    + destruct (_ =? _); [apply stable_ret|].
      destruct (_ <? _).
      * apply stable_bind; [apply stable_log|]. intros _. apply stable_ret.
      * destruct (_ >? _); apply stable_engine_call.
    + intros r. destruct (r >? 0); [apply IH | apply stable_ret].
Qed.

Lemma unique_fds_insert_free (ds : list Z) (i : nat) :
  unique_fds ds -> unique_fds (<[i := -1]> ds).
Proof.
  intros Hu a b d Ha Hb Hd.
  destruct (decide (i = a)) as [->|Hia].
  { apply list_lookup_insert_Some in Ha. destruct Ha as [(_ & <- & _)|[? _]]; congruence. }
  destruct (decide (i = b)) as [->|Hib].
  { apply list_lookup_insert_Some in Hb. destruct Hb as [(_ & <- & _)|[? _]]; congruence. }
  rewrite list_lookup_insert_ne in Ha, Hb by assumption.
  exact (Hu a b d Ha Hb Hd).
Qed.

Lemma unique_fds_insert_new (ds : list Z) (i : nat) (d0 : Z) :
  unique_fds ds -> (forall k, ds !! k <> Some d0) -> unique_fds (<[i := d0]> ds).
Proof.
  intros Hu Hnew a b d Ha Hb Hd.
  apply list_lookup_insert_Some in Ha. apply list_lookup_insert_Some in Hb.
  destruct Ha as [(-> & <- & _)|[Hia Ha]], Hb as [(Hb1 & Hb2 & _)|[Hib Hb]].
  - exact Hb1.
  - exfalso. exact (Hnew _ Hb).
  - subst. exfalso. exact (Hnew _ Ha).
  - exact (Hu a b d Ha Hb Hd).
Qed.

Lemma unique_fds_app_new (ds : list Z) (d0 : Z) :
  unique_fds ds -> (forall k, ds !! k <> Some d0) -> unique_fds (ds ++ [d0]).
Proof.
  intros Hu Hnew a b d Ha Hb Hd.
  apply lookup_app_Some in Ha. apply lookup_app_Some in Hb.
  destruct Ha as [Ha|[Hla Ha]], Hb as [Hb|[Hlb Hb]].
  - exact (Hu a b d Ha Hb Hd).
  - apply list_lookup_singleton_Some in Hb. destruct Hb as [_ <-].
    exfalso. exact (Hnew _ Ha).
  - apply list_lookup_singleton_Some in Ha. destruct Ha as [_ <-].
    exfalso. exact (Hnew _ Hb).
  - apply list_lookup_singleton_Some in Ha. apply list_lookup_singleton_Some in Hb.
    lia.
Qed.

Lemma unbound_fds (fd0 : Z) (w : world) :
  bound_context fd0 w = None -> forall k, fds w !! k <> Some fd0.
Proof.
  intros Hb k. unfold fds. rewrite list_lookup_fmap.
  destruct (pool w !! k) as [h|] eqn:Hk; [|discriminate].
  cbn. intros [= Hfd]. exact (context_scan_None _ _ Hb k h Hk Hfd).
Qed.

Lemma context_get_or_new_unique (fd0 : Z) (w : world) (ssl : option nat) (w1 : world) :
  unique_fds (fds w) ->
  context_get_or_new fd0 w = Done ssl w1 ->
  unique_fds (fds w1).
Proof.
  intros Hu. unfold context_get_or_new.
  rewrite (bind_eq _ _ _ _ _ (context_get_eq fd0 w)).
  destruct (bound_context fd0 w) as [k|] eqn:Hb.
  - intros [= _ <-]. exact Hu.
  - intros H. pose proof (unbound_fds _ _ Hb) as Hnew.
    destruct (context_new_Done _ _ _ _ H) as
      (_ & [(i & h & _ & _ & _ & _ & Hp) | [(_ & _ & _ & Hp) | (_ & _ & _ & Hl)]]);
      unfold fds in *.
    + rewrite Hp, list_fmap_insert. cbn [fd]. apply unique_fds_insert_new; assumption.
    + rewrite Hp, fmap_app. cbn [fmap list_fmap fd]. apply unique_fds_app_new; assumption.
    + unfold pool in *. rewrite Hl. exact Hu.
Qed.

Lemma mk_tls_close_unique (fd0 : Z) (w : world) (r : Z) (w' : world) :
  unique_fds (fds w) ->
  mk_tls_close fd0 w = Done r w' ->
  unique_fds (fds w').
Proof.
  intros Hu H. destruct (bound_context fd0 w) as [i|] eqn:Hb.
  - destruct (mk_tls_close_bound fd0 w i Hb) as (h & _ & _ & Hc). rewrite Hc in H.
    injection H as _ <-. unfold fds. cbn [pool local_context contexts].
    rewrite list_fmap_insert. cbn [fd]. apply unique_fds_insert_free. exact Hu.
  - rewrite (mk_tls_close_unbound fd0 w Hb) in H. injection H as _ <-. exact Hu.
Qed.

End Invariant.

Section Reachable.
Context {P : Platform}.

Lemma stable_fault {A} : stable (@fault P A).
Proof. intros w a w' H. discriminate. Qed.

Lemma after_acquire_unique {A} (fd0 : Z) (k : option nat -> M A) (w : world) (a : A)
    (w' : world) :
  (forall ssl, stable (k ssl)) ->
  unique_fds (fds w) ->
  bind (context_get_or_new fd0) k w = Done a w' ->
  unique_fds (fds w').
Proof.
  intros Hk Hu H. inv_bind H as ssl w1 Hssl.
  rewrite (Hk _ _ _ _ H). exact (context_get_or_new_unique _ _ _ _ Hu Hssl).
Qed.

Lemma mk_tls_read_unique (fd0 count : Z) (w : world) (a : Z * list Byte.byte)
    (w' : world) :
  unique_fds (fds w) -> mk_tls_read fd0 count w = Done a w' -> unique_fds (fds w').
Proof.
  apply after_acquire_unique. intros ssl.
  apply stable_bind; [apply stable_engine_call|]. intros rd. cbv zeta.
  apply stable_bind; [apply stable_handle_return|]. intros r.
  destruct (r >? 0); [|apply stable_ret].
  apply stable_bind; [apply stable_head_of|]. intros h. cbv zeta.
  destruct (0 <? _)%N; apply stable_ret.
Qed.

Lemma mk_tls_write_unique (fd0 : Z) (buf : list Byte.byte) (count : Z) (w : world)
    (a : Z) (w' : world) :
  unique_fds (fds w) -> mk_tls_write fd0 buf count w = Done a w' ->
  unique_fds (fds w').
Proof.
  apply after_acquire_unique. intros ssl.
  apply stable_bind; [apply stable_engine_call|]. intros r.
  apply stable_handle_return.
Qed.

Lemma mk_tls_writev_unique (fd0 : Z) (mk_io : mk_iov) (w : world) (a : Z)
    (w' : world) :
  unique_fds (fds w) -> mk_tls_writev fd0 mk_io w = Done a w' ->
  unique_fds (fds w').
Proof.
  unfold mk_tls_writev. cbv zeta.
  apply after_acquire_unique. intros ssl.
  apply stable_bind; [apply stable_sys_call|]. intros ok.
  destruct (negb ok).
  - apply stable_bind; [apply stable_log|]. intros _. apply stable_ret.
  - destruct (iov_copy _ _ _) as [buf used].
    destruct (negb _); [apply stable_fault|].
    apply stable_bind; [apply stable_engine_call|]. intros r.
    apply stable_handle_return.
Qed.

Lemma mk_tls_send_file_unique (fuel : nat) (fd0 file_fd file_offset file_count : Z)
    (w : world) (a : Z * Z) (w' : world) :
  unique_fds (fds w) ->
  mk_tls_send_file fuel fd0 file_fd file_offset file_count w = Done a w' ->
  unique_fds (fds w').
Proof.
  apply after_acquire_unique. intros ssl.
  apply stable_bind; [apply stable_sys_call|]. intros ok.
  destruct (negb ok); [apply stable_ret|].
  apply stable_bind; [apply stable_send_file_loop|]. intros [[r sent] off].
  destruct (sent >? 0); [apply stable_ret|].
  apply stable_bind; [apply stable_handle_return|]. intros r'. apply stable_ret.
Qed.

Lemma run_unique (o : operation) (w w' : world) :
  unique_fds (fds w) -> run o w = Done tt w' -> unique_fds (fds w').
Proof.
  intros Hu H. destruct o; simpl in H; inv_bind H as a w1 Ha;
    injection H as <-.
  - exact (mk_tls_read_unique _ _ _ _ _ Hu Ha).
  - exact (mk_tls_write_unique _ _ _ _ _ _ Hu Ha).
  - exact (mk_tls_writev_unique _ _ _ _ _ Hu Ha).
  - exact (mk_tls_send_file_unique _ _ _ _ _ _ _ _ Hu Ha).
  - exact (mk_tls_close_unique _ _ _ _ Hu Ha).
Qed.

Lemma reachable_unique (w : world) : reachable w -> unique_fds (fds w).
Proof.
  induction 1 as [s | w w' o _ IH Hrun].
  - intros i j d Hi. destruct i; discriminate.
  - exact (run_unique o w w' IH Hrun).
Qed.

Lemma run_all_reachable (os : list operation) (w w' : world) :
  reachable w -> run_all os w = Some w' -> reachable w'.
Proof.
  revert w. induction os as [|o os IH]; intros w Hr; simpl.
  - intros [= <-]. exact Hr.
  - destruct (run o w) as [[] w1| |] eqn:Ho; try discriminate.
    apply IH. exact (reachable_step w w1 o Hr Ho).
Qed.

(** C5: in every state a worker reaches from the empty list through
    [mk_tls_read], [mk_tls_write], [mk_tls_writev], [mk_tls_send_file] and
    [mk_tls_close], whatever their arguments, at most one entry of the list
    is bound to a descriptor [d] (any value but the free marker -1). *)
Theorem one_context_per_descriptor (w : world) (d : Z) :
  reachable w -> d <> -1 -> at_most_one_bound d w.
Proof.
  intros Hr Hd i j hi hj Hi Hj Hfi Hfj.
  apply (reachable_unique w Hr i j d); [| |exact Hd];
    unfold fds; rewrite list_lookup_fmap.
  - rewrite Hi. cbn. congruence.
  - rewrite Hj. cbn. congruence.
Qed.

End Reachable.

(** ** File send *)

Section SendFile.
Context {P : Platform}.

Lemma grows_ret {A} (a : A) : grows (ret a).
Proof. intros w a' w' [= _ <-]. exists []. rewrite app_nil_r. reflexivity. Qed.

Lemma grows_bind {A B} (m : M A) (f : A -> M B) :
  grows m -> (forall a, grows (f a)) -> grows (bind m f).
Proof.
  intros Hm Hf w b w' H. inv_bind H as a w1 Ha.
  destruct (Hm _ _ _ Ha) as [r1 E1]. destruct (Hf _ _ _ _ H) as [r2 E2].
  exists (r1 ++ r2). rewrite E2, E1, app_assoc. reflexivity.
Qed.

Lemma grows_log (e : event) : grows (log e).
Proof. intros w a w' [= _ <-]. exists [e]. reflexivity. Qed.

Lemma grows_engine_call {R} (ssl : option nat)
    (f : ssl_context session -> Z -> sys extern -> R * ssl_context session * sys extern)
    (ev : nat -> R -> event) :
  grows (engine_call ssl f ev).
Proof.
  intros w r w' H.
  destruct (engine_call_Done _ _ _ _ _ _ H) as (i & h & _ & _ & _ & _ & _ & Ht).
  eexists. exact Ht.
Qed.

Lemma pread_call_eq (file_fd count offset : Z) (w : world) :
  pread_call file_fd count offset w =
  Done (pread file_fd count offset (host w)).1
       (Build_world (local_context w) (pread file_fd count offset (host w)).2
          (trace w ++ [ev_pread file_fd count offset
                         (pread file_fd count offset (host w)).1.1])).
Proof.
  unfold pread_call, bind, sys_call.
  destruct (pread file_fd count offset (host w)) as [[used buf] s]. reflexivity.
Qed.

Lemma grows_send_file_loop (fuel : nat) (ssl : option nat)
    (file_fd remain sent file_offset : Z) :
  grows (send_file_loop fuel ssl file_fd remain sent file_offset).
Proof.
  revert remain sent file_offset.
  induction fuel as [|fuel IH]; intros remain sent file_offset; simpl.
  - intros w a w' H. discriminate.
  - apply grows_bind.
    { intros w a w' H. rewrite pread_call_eq in H. injection H as _ <-.
      eexists. reflexivity. }
    intros rd. cbv zeta. apply grows_bind.
    + destruct (_ =? _); [apply grows_ret|].
      destruct (_ <? _).
      * apply grows_bind; [apply grows_log|]. intros _. apply grows_ret.
      * destruct (_ >? _); apply grows_engine_call.
    + intros r. destruct (r >? 0); [apply IH | apply grows_ret].
Qed.

(** C4 (amended): [mk_tls_send_file] with [file_count = 0], once it has its
    context and its buffer, first reads the file at the given offset. When
    that read returns 0 (end of file) the call returns 0 with nothing handed
    to the engine and the offset unchanged; when that read fails the call logs
    it and returns a result that is not positive, again with nothing handed to
    the engine and the offset unchanged. Whenever the call returns, the read
    is the first thing it did. *)
Theorem send_file_count_zero (fuel : nat) (fd0 file_fd off : Z) (w : world)
    (ssl : option nat) (w1 : world) :
  context_get_or_new fd0 w = Done ssl w1 ->
  (mem_alloc SENDFILE_BUF_SIZE (host w1)).1 = true ->
  let s := (mem_alloc SENDFILE_BUF_SIZE (host w1)).2 in
  let used := (pread file_fd SENDFILE_BUF_SIZE off s).1.1 in
  (used = 0 ->
   exists w',
     mk_tls_send_file (S fuel) fd0 file_fd off 0 w = Done (0, off) w' /\
     trace w' = trace w ++ [ev_pread file_fd SENDFILE_BUF_SIZE off 0] /\
     pool w' = pool w1 /\
     host w' = (pread file_fd SENDFILE_BUF_SIZE off s).2) /\
  (used < 0 ->
   exists r w',
     mk_tls_send_file (S fuel) fd0 file_fd off 0 w = Done (r, off) w' /\
     r <= 0 /\
     trace w' = trace w ++ [ev_pread file_fd SENDFILE_BUF_SIZE off used;
                            ev_mk_err "Read from file failed"] /\
     pool w' = pool w1) /\
  (forall a w',
      mk_tls_send_file (S fuel) fd0 file_fd off 0 w = Done a w' ->
      exists rest,
        trace w' = trace w ++ ev_pread file_fd SENDFILE_BUF_SIZE off used :: rest).
Proof.
  intros Hssl Halloc. cbv zeta.
  pose proof (context_get_or_new_trace _ _ _ _ Hssl) as Ht.
  destruct (mem_alloc SENDFILE_BUF_SIZE (host w1)) as [ok s] eqn:Hm.
  cbn [fst snd] in *. subst ok.
  set (used := (pread file_fd SENDFILE_BUF_SIZE off s).1.1).
  set (w2 := Build_world (local_context w1) s (trace w1)).
  assert (Hstart :
             mk_tls_send_file (S fuel) fd0 file_fd off 0 w =
             bind (send_file_loop (S fuel) ssl file_fd 0 0 off)
                  (fun st => let '(r, sent, off') := st in
                             if sent >? 0 then ret (to_int sent, off')
                             else bind (handle_return r) (fun r => ret (r, off'))) w2).
  { unfold mk_tls_send_file. rewrite (bind_eq _ _ _ _ _ Hssl).
    unfold bind at 1, sys_call. rewrite Hm. reflexivity. }
  split; [|split].
  - intros Hused.
    assert (Hloop : send_file_loop (S fuel) ssl file_fd 0 0 off w2 =
                    Done (0, 0, off)
                      (Build_world (local_context w1)
                         (pread file_fd SENDFILE_BUF_SIZE off s).2
                         (trace w1 ++ [ev_pread file_fd SENDFILE_BUF_SIZE off 0]))).
    { cbn [send_file_loop]. rewrite (bind_eq _ _ _ _ _ (pread_call_eq _ _ _ _)).
      cbv zeta. subst w2. cbn [host trace local_context]. fold used.
      rewrite Hused. reflexivity. }
    eexists. split; [rewrite Hstart, (bind_eq _ _ _ _ _ Hloop); reflexivity|].
    cbn [trace host]. rewrite Ht. auto.
  - intros Hused.
    assert (Hloop : send_file_loop (S fuel) ssl file_fd 0 0 off w2 =
                    Done (-1, 0, off)
                      (Build_world (local_context w1)
                         (pread file_fd SENDFILE_BUF_SIZE off s).2
                         ((trace w1 ++ [ev_pread file_fd SENDFILE_BUF_SIZE off used]) ++
                          [ev_mk_err "Read from file failed"]))).
    { cbn [send_file_loop]. rewrite (bind_eq _ _ _ _ _ (pread_call_eq _ _ _ _)).
      cbv zeta. subst w2. cbn [host trace local_context]. fold used.
      destruct (Z.eqb_spec used 0); [lia|]. destruct (Z.ltb_spec used 0); [|lia].
      reflexivity. }
    match type of Hloop with _ = Done _ ?w3 =>
      destruct (handle_return_frame (-1) w3) as (r & w' & Hret & Hl & _ & Htr)
    end.
    exists r, w'. split; [|split; [|split]].
    + rewrite Hstart, (bind_eq _ _ _ _ _ Hloop). cbv beta iota zeta.
      change (0 >? 0) with false. cbv iota.
      rewrite (bind_eq _ _ _ _ _ Hret). reflexivity.
    + assert (Hm1 : -1 <= 0) by lia. exact (handle_return_nonpos _ _ _ _ Hm1 Hret).
    + rewrite Htr. cbn [trace]. rewrite Ht, <- app_assoc. reflexivity.
    + unfold pool at 1. rewrite Hl. reflexivity.
  - intros a w' H. rewrite Hstart in H.
    inv_bind H as st w4 Hloop. cbn [send_file_loop] in Hloop.
    inv_bind Hloop as rd w3 Hrd.
    rewrite pread_call_eq in Hrd. subst w2. cbn [host trace local_context] in Hrd.
    injection Hrd as <- <-. cbv zeta in Hloop.
    inv_bind Hloop as e w5 He.
    assert (G1 : exists r1, trace w5 =
                   (trace w1 ++ [ev_pread file_fd SENDFILE_BUF_SIZE off used]) ++ r1).
    { revert He. fold used.
      match goal with |- ?m _ = _ -> _ => assert (Hg : grows m) end.
      { destruct (_ =? _); [apply grows_ret|].
        destruct (_ <? _).
        - apply grows_bind; [apply grows_log|]. intros _. apply grows_ret.
        - destruct (_ >? _); apply grows_engine_call. }
      intros He. exact (Hg _ _ _ He). }
    assert (G2 : exists r2, trace w4 = trace w5 ++ r2).
    { destruct (e >? 0).
      - exact (grows_send_file_loop _ _ _ _ _ _ _ _ _ Hloop).
      - injection Hloop as _ <-. exists []. rewrite app_nil_r. reflexivity. }
    assert (G3 : trace w' = trace w4).
    { destruct st as [[r0 sent] off']. destruct (sent >? 0).
      - injection H as _ <-. reflexivity.
      - inv_bind H as r1 w6 Hr. injection H as _ <-.
        exact (proj2 (handle_return_pool _ _ _ _ Hr)). }
    destruct G1 as [r1 G1]. destruct G2 as [r2 G2].
    exists (r1 ++ r2). rewrite G3, G2, G1, Ht, <- !app_assoc. reflexivity.
Qed.

End SendFile.

(** * Further properties of the pool and of the adapter *)

Section Frames.
Context {P : Platform}.

Lemma local_to_ret {A} (ssl : option nat) (a : A) : local_to ssl (ret a).
Proof. intros w a' w' [= _ <-]. auto. Qed.

Lemma local_to_fault {A} (ssl : option nat) : local_to ssl (@fault P A).
Proof. intros w a w' H. discriminate. Qed.

Lemma local_to_bind {A B} (ssl : option nat) (m : M A) (f : A -> M B) :
  local_to ssl m -> (forall a, local_to ssl (f a)) -> local_to ssl (bind m f).
Proof.
  intros Hm Hf w b w' H. inv_bind H as a w1 Ha.
  destruct (Hm _ _ _ Ha) as [E1 F1]. destruct (Hf _ _ _ _ H) as [E2 F2].
  split; [congruence|]. intros j Hj. rewrite (F2 j Hj). exact (F1 j Hj).
Qed.

Lemma local_to_same_context {A} (ssl : option nat) (m : M A) :
  (forall w a w', m w = Done a w' -> local_context w' = local_context w) ->
  local_to ssl m.
Proof.
  intros Hm w a w' H. unfold fds, pool. rewrite (Hm _ _ _ H). auto.
Qed.

Lemma local_to_log (ssl : option nat) (e : event) : local_to ssl (log e).
Proof. apply local_to_same_context. intros w a w' [= _ <-]. reflexivity. Qed.

Lemma local_to_sys_call {R} (ssl : option nat) (f : sys extern -> R * sys extern) :
  local_to ssl (sys_call f).
Proof.
  apply local_to_same_context. intros w a w'. unfold sys_call.
  destruct (f (host w)). intros [= _ <-]. reflexivity.
Qed.

Lemma local_to_handle_return (ssl : option nat) (e : Z) :
  local_to ssl (handle_return e).
Proof.
  apply local_to_same_context. intros w r w' H.
  destruct (handle_return_frame e w) as (r1 & w1 & H1 & Hl & _).
  rewrite H in H1. injection H1 as _ <-. exact Hl.
Qed.

Lemma local_to_head_of (ssl ssl' : option nat) : local_to ssl (head_of ssl').
Proof.
  intros w h w' H. destruct (head_of_Done _ _ _ _ H) as [-> _]. auto.
Qed.

Lemma local_to_engine_call {R} (ssl : option nat)
    (f : ssl_context session -> Z -> sys extern -> R * ssl_context session * sys extern)
    (ev : nat -> R -> event) :
  local_to ssl (engine_call ssl f ev).
Proof.
  intros w r w' H. split; [exact (stable_engine_call _ _ _ _ _ _ H)|].
  destruct (engine_call_Done _ _ _ _ _ _ H) as (i & h & -> & _ & _ & Hp & _).
  intros j Hj. rewrite Hp. apply list_lookup_insert_ne. congruence.
Qed.

Lemma local_to_pread_call (ssl : option nat) (file_fd count offset : Z) :
  local_to ssl (pread_call file_fd count offset).
Proof.
  apply local_to_same_context. intros w a w' H.
  rewrite pread_call_eq in H. injection H as _ <-. reflexivity.
Qed.

Lemma local_to_send_file_loop (fuel : nat) (ssl : option nat)
    (file_fd remain sent file_offset : Z) :
  local_to ssl (send_file_loop fuel ssl file_fd remain sent file_offset).
Proof.
  revert remain sent file_offset.
  induction fuel as [|fuel IH]; intros remain sent file_offset; simpl.
  - intros w a w' H. discriminate.
  - apply local_to_bind; [apply local_to_pread_call|]. intros rd. cbv zeta.
    apply local_to_bind.
    + destruct (_ =? _); [apply local_to_ret|].
      destruct (_ <? _).
      * apply local_to_bind; [apply local_to_log|]. intros _. apply local_to_ret.
      * destruct (_ >? _); apply local_to_engine_call.
    + intros r. destruct (r >? 0); [apply IH | apply local_to_ret].
Qed.

(** The part of each operation that follows the lookup of the context. *)
Lemma mk_tls_read_acquire (fd0 count : Z) (w : world) (a : Z * list Byte.byte)
    (w' : world) :
  mk_tls_read fd0 count w = Done a w' ->
  exists ssl w1, context_get_or_new fd0 w = Done ssl w1 /\
    fds w' = fds w1 /\ forall j, ssl <> Some j -> pool w' !! j = pool w1 !! j.
Proof.
  unfold mk_tls_read. intros H. inv_bind H as ssl w1 Hssl.
  exists ssl, w1. split; [exact Hssl|]. revert H.
  match goal with |- ?k w1 = _ -> _ => enough (Hl : local_to ssl k) by apply Hl end.
  apply local_to_bind; [apply local_to_engine_call|]. intros rd. cbv zeta.
  apply local_to_bind; [apply local_to_handle_return|]. intros r.
  destruct (r >? 0); [|apply local_to_ret].
  apply local_to_bind; [apply local_to_head_of|]. intros h. cbv zeta.
  destruct (0 <? _)%N; apply local_to_ret.
Qed.

Lemma mk_tls_write_acquire (fd0 : Z) (buf : list Byte.byte) (count : Z) (w : world)
    (a : Z) (w' : world) :
  mk_tls_write fd0 buf count w = Done a w' ->
  exists ssl w1, context_get_or_new fd0 w = Done ssl w1 /\
    fds w' = fds w1 /\ forall j, ssl <> Some j -> pool w' !! j = pool w1 !! j.
Proof.
  unfold mk_tls_write. intros H. inv_bind H as ssl w1 Hssl.
  exists ssl, w1. split; [exact Hssl|]. revert H.
  match goal with |- ?k w1 = _ -> _ => enough (Hl : local_to ssl k) by apply Hl end.
  apply local_to_bind; [apply local_to_engine_call|]. intros r.
  apply local_to_handle_return.
Qed.

Lemma mk_tls_writev_acquire (fd0 : Z) (mk_io : mk_iov) (w : world) (a : Z)
    (w' : world) :
  mk_tls_writev fd0 mk_io w = Done a w' ->
  exists ssl w1, context_get_or_new fd0 w = Done ssl w1 /\
    fds w' = fds w1 /\ forall j, ssl <> Some j -> pool w' !! j = pool w1 !! j.
Proof.
  unfold mk_tls_writev. cbv zeta. intros H. inv_bind H as ssl w1 Hssl.
  exists ssl, w1. split; [exact Hssl|]. revert H.
  match goal with |- ?k w1 = _ -> _ => enough (Hl : local_to ssl k) by apply Hl end.
  apply local_to_bind; [apply local_to_sys_call|]. intros ok.
  destruct (negb ok).
  - apply local_to_bind; [apply local_to_log|]. intros _. apply local_to_ret.
  - destruct (iov_copy _ _ _) as [buf used].
    destruct (negb _); [apply local_to_fault|].
    apply local_to_bind; [apply local_to_engine_call|]. intros r.
    apply local_to_handle_return.
Qed.

Lemma mk_tls_send_file_acquire (fuel : nat) (fd0 file_fd file_offset file_count : Z)
    (w : world) (a : Z * Z) (w' : world) :
  mk_tls_send_file fuel fd0 file_fd file_offset file_count w = Done a w' ->
  exists ssl w1, context_get_or_new fd0 w = Done ssl w1 /\
    fds w' = fds w1 /\ forall j, ssl <> Some j -> pool w' !! j = pool w1 !! j.
Proof.
  unfold mk_tls_send_file. intros H. inv_bind H as ssl w1 Hssl.
  exists ssl, w1. split; [exact Hssl|]. revert H.
  match goal with |- ?k w1 = _ -> _ => enough (Hl : local_to ssl k) by apply Hl end.
  apply local_to_bind; [apply local_to_sys_call|]. intros ok.
  destruct (negb ok); [apply local_to_ret|].
  apply local_to_bind; [apply local_to_send_file_loop|]. intros [[r sent] off].
  destruct (sent >? 0); [apply local_to_ret|].
  apply local_to_bind; [apply local_to_handle_return|]. intros r'. apply local_to_ret.
Qed.

Lemma run_acquire (o : operation) (w w' : world) :
  run o w = Done tt w' ->
  (exists fd0, o = op_close fd0) \/
  exists ssl w1, context_get_or_new (op_fd o) w = Done ssl w1 /\
    fds w' = fds w1 /\ forall j, ssl <> Some j -> pool w' !! j = pool w1 !! j.
Proof.
  intros H. destruct o; simpl in H; inv_bind H as a w1 Ha; injection H as <-.
  - right. exact (mk_tls_read_acquire _ _ _ _ _ Ha).
  - right. exact (mk_tls_write_acquire _ _ _ _ _ _ Ha).
  - right. exact (mk_tls_writev_acquire _ _ _ _ _ Ha).
  - right. exact (mk_tls_send_file_acquire _ _ _ _ _ _ _ _ Ha).
  - left. eauto.
Qed.

(** What the lookup of the context does to the list. *)
Lemma context_get_or_new_frame (fd0 : Z) (w : world) (ssl : option nat) (w1 : world) :
  context_get_or_new fd0 w = Done ssl w1 ->
  (length (pool w) <= length (pool w1) <= S (length (pool w)))%nat /\
  (forall j, ssl <> Some j -> pool w1 !! j = pool w !! j) /\
  (bound_context fd0 w <> None \/ bound_context (-1) w <> None ->
   length (pool w1) = length (pool w)) /\
  (forall i, ssl = Some i -> bound_context fd0 w1 = Some i).
Proof.
  unfold context_get_or_new. rewrite (bind_eq _ _ _ _ _ (context_get_eq fd0 w)).
  destruct (bound_context fd0 w) as [k|] eqn:Hb.
  - intros [= <- <-]. repeat split; auto. intros i [= <-]. exact Hb.
  - intros H. unfold bound_context in *.
    destruct (context_new_Done _ _ _ _ H) as
      (_ & [(i & h & Hs & Hi & -> & _ & Hp) | [(Hs & -> & _ & Hp) | (Hs & -> & _ & Hl)]]).
    + rewrite Hp, length_insert. repeat split; try lia.
      * intros j Hj. apply list_lookup_insert_ne. congruence.
      * intros k [= <-]. apply context_scan_insert_first.
        -- eapply lookup_lt_Some. exact Hi.
        -- intros j h' _. apply (context_scan_None _ _ Hb).
    + rewrite Hp, length_app. cbn [length]. repeat split; try lia.
      * intros j Hj. destruct (lt_dec j (length (pool w))) as [Hlt|Hge].
        -- apply lookup_app_l. exact Hlt.
        -- rewrite !lookup_ge_None_2; [reflexivity | lia |].
           rewrite length_app. cbn [length].
           assert (j <> length (pool w)) by congruence. lia.
      * intros [Hc|Hc]; congruence.
      * intros k [= <-]. apply context_scan_app_last. exact Hb.
    + assert (Hp : pool w1 = pool w) by (unfold pool; rewrite Hl; reflexivity).
      rewrite Hp. repeat split; auto. intros i [=].
Qed.

Lemma fds_length (w w' : world) : fds w' = fds w -> length (pool w') = length (pool w).
Proof.
  unfold fds. intros H. apply (f_equal length) in H.
  rewrite !length_fmap in H. exact H.
Qed.

Lemma context_scan_fds (d : Z) (l1 l2 : list polar_context_head) :
  fd <$> l1 = fd <$> l2 -> context_scan d l1 = context_scan d l2.
Proof.
  revert l2. induction l1 as [|a l1 IH]; intros [|b l2]; simpl; try discriminate.
  - reflexivity.
  - intros [= Hab Hl]. rewrite Hab, (IH l2 Hl). reflexivity.
Qed.

Lemma bound_context_fds (d : Z) (w w' : world) :
  fds w' = fds w -> bound_context d w' = bound_context d w.
Proof. unfold bound_context, fds. apply context_scan_fds. Qed.

(** X1: the list of a thread never shrinks and grows by at most one entry per
    operation. It does not grow when an entry is already bound to the
    operation's descriptor or when some entry is free, and it never grows on a
    close. *)
Theorem pool_growth (o : operation) (w w' : world) :
  run o w = Done tt w' ->
  (length (pool w) <= length (pool w') <= S (length (pool w)))%nat /\
  (bound_context (op_fd o) w <> None \/ bound_context (-1) w <> None ->
   length (pool w') = length (pool w)) /\
  (forall fd0, o = op_close fd0 -> length (pool w') = length (pool w)).
Proof.
  intros H. destruct (run_acquire o w w' H) as [[fd0 ->] | (ssl & w1 & Hssl & Hf & _)].
  - simpl in H. inv_bind H as r w1 Hc. injection H as <-.
    assert (Hlen : length (pool w1) = length (pool w)).
    { destruct (bound_context fd0 w) as [i|] eqn:Hb.
      - destruct (mk_tls_close_bound fd0 w i Hb) as (h & _ & _ & E).
        rewrite E in Hc. injection Hc as _ <-.
        cbn [pool local_context contexts]. apply length_insert.
      - rewrite (mk_tls_close_unbound fd0 w Hb) in Hc. injection Hc as _ <-.
        reflexivity. }
    rewrite Hlen. repeat split; auto; lia.
  - destruct (context_get_or_new_frame _ _ _ _ Hssl) as (Hle & _ & Heq & _).
    rewrite (fds_length _ _ Hf). repeat split; try lia.
    + exact Heq.
    + intros fd0 ->. simpl in H. inv_bind H as r w2 Hc. injection H as <-.
      destruct (bound_context fd0 w) as [i|] eqn:Hb.
      * apply Heq. left. simpl. congruence.
      * rewrite (mk_tls_close_unbound fd0 w Hb) in Hc. injection Hc as _ <-.
        rewrite <- (fds_length _ _ Hf). reflexivity.
Qed.

(** X2: an operation changes at most one entry of the list: every other
    entry, with its engine context and its descriptor, is after the operation
    what it was before. *)
Theorem one_entry_touched (o : operation) (w w' : world) :
  run o w = Done tt w' ->
  exists i, forall j, j <> i -> pool w' !! j = pool w !! j.
Proof.
  intros H. destruct (run_acquire o w w' H) as [[fd0 ->] | (ssl & w1 & Hssl & _ & Hf)].
  - simpl in H. inv_bind H as r w1 Hc. injection H as <-.
    destruct (bound_context fd0 w) as [i|] eqn:Hb.
    + destruct (mk_tls_close_bound fd0 w i Hb) as (h & _ & _ & E).
      rewrite E in Hc. injection Hc as _ <-. exists i. intros j Hj.
      cbn [pool local_context contexts]. apply list_lookup_insert_ne. congruence.
    + rewrite (mk_tls_close_unbound fd0 w Hb) in Hc. injection Hc as _ <-.
      exists 0%nat. reflexivity.
  - destruct (context_get_or_new_frame _ _ _ _ Hssl) as (_ & Hg & _).
    destruct ssl as [i|].
    + exists i. intros j Hj. rewrite Hf by congruence. apply Hg. congruence.
    + exists 0%nat. intros j _. rewrite Hf by discriminate. apply Hg. discriminate.
Qed.

End Frames.

Section Binding.
Context {P : Platform}.

Lemma context_get_or_new_bound (fd0 : Z) (w : world) (i : nat) :
  bound_context fd0 w = Some i -> context_get_or_new fd0 w = Done (Some i) w.
Proof.
  intros Hb. unfold context_get_or_new.
  rewrite (bind_eq _ _ _ _ _ (context_get_eq fd0 w)), Hb. reflexivity.
Qed.

Lemma mk_tls_read_binds (fd0 count : Z) (w : world) (a : Z * list Byte.byte)
    (w' : world) :
  mk_tls_read fd0 count w = Done a w' ->
  exists i e, trace w' = trace w ++ [ev_ssl_read i count e] /\
              bound_context fd0 w' = Some i.
Proof.
  intros H. destruct (mk_tls_read_acquire _ _ _ _ _ H) as (ssl & w1 & Hssl & Hf & _).
  destruct (context_get_or_new_frame _ _ _ _ Hssl) as (_ & _ & _ & Hb).
  unfold mk_tls_read in H. rewrite (bind_eq _ _ _ _ _ Hssl) in H.
  inv_bind H as rd w2 Hrd.
  destruct (engine_call_Done _ _ _ _ _ _ Hrd) as (i & h & -> & _ & _ & _ & _ & Ht).
  exists i, (fst rd). split.
  - cbv zeta in H. inv_bind H as r0 w3 Hret.
    destruct (handle_return_pool _ _ _ _ Hret) as [_ Ht3].
    assert (Hw : trace w' = trace w3).
    { destruct (r0 >? 0); [|injection H as _ <-; reflexivity].
      inv_bind H as h3 w4 Hh. destruct (head_of_Done _ _ _ _ Hh) as [-> _].
      destruct (0 <? _)%N; injection H as _ <-; reflexivity. }
    rewrite Hw, Ht3, Ht, (context_get_or_new_trace _ _ _ _ Hssl). reflexivity.
  - rewrite (bound_context_fds _ _ _ Hf). apply Hb. reflexivity.
Qed.

Lemma mk_tls_write_binds (fd0 : Z) (buf : list Byte.byte) (count : Z) (w : world)
    (r : Z) (w' : world) :
  mk_tls_write fd0 buf count w = Done r w' ->
  exists i e, trace w' = trace w ++ [ev_ssl_write i buf count e] /\
              bound_context fd0 w' = Some i /\
              exists w1 w2, context_get_or_new fd0 w = Done (Some i) w1 /\
                            handle_return e w2 = Done r w'.
Proof.
  intros H. destruct (mk_tls_write_acquire _ _ _ _ _ _ H) as (ssl & w1 & Hssl & Hf & _).
  destruct (context_get_or_new_frame _ _ _ _ Hssl) as (_ & _ & _ & Hb).
  unfold mk_tls_write in H. rewrite (bind_eq _ _ _ _ _ Hssl) in H.
  inv_bind H as e w2 He.
  destruct (engine_call_Done _ _ _ _ _ _ He) as (i & h & -> & _ & _ & _ & _ & Ht).
  destruct (handle_return_pool _ _ _ _ H) as [_ Ht3].
  exists i, e. split; [|split].
  - rewrite Ht3, Ht, (context_get_or_new_trace _ _ _ _ Hssl). reflexivity.
  - rewrite (bound_context_fds _ _ _ Hf). apply Hb. reflexivity.
  - exists w1, w2. auto.
Qed.

(** X3: after a read or a write on [fd0] returned, the context the engine was
    called on is the context bound to [fd0]: [context_get fd0] finds that very
    entry. *)
Theorem operation_leaves_context_bound (fd0 : Z) (w : world) :
  (forall count a w',
      mk_tls_read fd0 count w = Done a w' ->
      exists i e, trace w' = trace w ++ [ev_ssl_read i count e] /\
                  context_get fd0 w' = Done (Some i) w') /\
  (forall buf count r w',
      mk_tls_write fd0 buf count w = Done r w' ->
      exists i e, trace w' = trace w ++ [ev_ssl_write i buf count e] /\
                  context_get fd0 w' = Done (Some i) w').
Proof.
  split.
  - intros count a w' H. destruct (mk_tls_read_binds _ _ _ _ _ H) as (i & e & Ht & Hb).
    exists i, e. split; [exact Ht|]. rewrite context_get_eq, Hb. reflexivity.
  - intros buf count r w' H.
    destruct (mk_tls_write_binds _ _ _ _ _ _ H) as (i & e & Ht & Hb & _).
    exists i, e. split; [exact Ht|]. rewrite context_get_eq, Hb. reflexivity.
Qed.

(** X4: a read followed by a write on the same descriptor calls the engine on
    one and the same context, and the write adds no entry to the list: the
    session state the read left is the one the write continues. *)
Theorem read_then_write_same_context (fd0 count : Z) (buf : list Byte.byte) (n : Z)
    (w : world) (a : Z * list Byte.byte) (w1 : world) (r : Z) (w2 : world) :
  mk_tls_read fd0 count w = Done a w1 ->
  mk_tls_write fd0 buf n w1 = Done r w2 ->
  exists i e1 e2,
    trace w2 = trace w ++ [ev_ssl_read i count e1; ev_ssl_write i buf n e2] /\
    length (pool w2) = length (pool w1).
Proof.
  intros Hr Hw.
  destruct (mk_tls_read_binds _ _ _ _ _ Hr) as (i & e1 & Ht1 & Hb).
  destruct (mk_tls_write_binds _ _ _ _ _ _ Hw) as (i' & e2 & Ht2 & _ & w3 & w4 & Hg & _).
  rewrite (context_get_or_new_bound _ _ _ Hb) in Hg. injection Hg as <- <-.
  exists i, e1, e2. split.
  - rewrite Ht2, Ht1, <- app_assoc. reflexivity.
  - destruct (mk_tls_write_acquire _ _ _ _ _ _ Hw) as (ssl & w5 & Hssl & Hf & _).
    rewrite (context_get_or_new_bound _ _ _ Hb) in Hssl. injection Hssl as _ <-.
    exact (fds_length _ _ Hf).
Qed.

(** X5: in a state reached through the operations, after [mk_tls_close fd0]
    no context is bound to [fd0] any more ([fd0] a descriptor, not -1), and a
    second close of [fd0] does nothing but close the descriptor again. *)
Theorem close_unbinds (fd0 : Z) (w : world) :
  reachable w -> fd0 <> -1 ->
  exists w',
    mk_tls_close fd0 w = Done 0 w' /\
    bound_context fd0 w' = None /\
    mk_tls_close fd0 w' =
    Done 0 (Build_world (local_context w') (net_close fd0 (host w'))
                        (trace w' ++ [ev_net_close fd0])).
Proof.
  intros Hr Hfd. pose proof (reachable_unique w Hr) as Hu.
  assert (Hex : exists w', mk_tls_close fd0 w = Done 0 w' /\ bound_context fd0 w' = None).
  { destruct (bound_context fd0 w) as [i|] eqn:Hb.
    - destruct (mk_tls_close_bound fd0 w i Hb) as (h & Hi & Hh & E).
      eexists. split; [exact E|].
      unfold bound_context. cbn [pool local_context contexts].
      match goal with |- context_scan fd0 ?l = None =>
        destruct (context_scan fd0 l) as [j|] eqn:Hs; [exfalso|reflexivity] end.
      destruct (context_scan_Some _ _ _ Hs) as (h' & Hj & Hfj & _).
      destruct (decide (j = i)) as [->|Hji].
      + rewrite list_lookup_insert_eq in Hj by (eapply lookup_lt_Some; exact Hi).
        injection Hj as <-. cbn in Hfj. congruence.
      + rewrite list_lookup_insert_ne in Hj by congruence.
        apply Hji. apply (Hu j i fd0); [| |exact Hfd];
          unfold fds; rewrite list_lookup_fmap.
        * rewrite Hj. cbn. congruence.
        * rewrite Hi. cbn. congruence.
    - eexists. split; [exact (mk_tls_close_unbound fd0 w Hb)|].
      unfold bound_context in *. exact Hb. }
  destruct Hex as (w' & Hc & Hb'). exists w'. split; [exact Hc|]. split; [exact Hb'|].
  exact (mk_tls_close_unbound fd0 w' Hb').
Qed.

End Binding.

Section Results.
Context {P : Platform}.

Lemma handle_return_range (e : Z) (w : world) (r : Z) (w' : world) :
  handle_return e w = Done r w' ->
  (0 <= e /\ r = e) \/
  (e < 0 /\ (r = -1 \/ (r = 0 /\ e = POLARSSL_ERR_SSL_CONN_EOF))).
Proof.
  unfold handle_return. destruct (Z.ltb_spec e 0) as [Hneg|Hpos].
  - destruct (_ || _).
    + unfold bind, get_errno, set_errno, ret. destruct (negb _); intros [= <- _]; auto.
    + destruct (Z.eqb_spec e POLARSSL_ERR_SSL_CONN_EOF).
      * intros [= <- _]. auto.
      * unfold bind, get_errno, set_errno, ret. destruct (_ =? _); intros [= <- _]; auto.
  - intros [= <- _]. auto.
Qed.

(** X6: [mk_tls_write] and [mk_tls_writev] never pass an engine error code on
    to the host: what they return is -1, 0 or a positive count. A positive
    count is exactly what [ssl_write] returned, and 0 is returned only when
    [ssl_write] returned 0 or the end-of-connection code. *)
Theorem write_result_range (fd0 : Z) (w : world) (r : Z) (w' : world) :
  (forall buf count,
      mk_tls_write fd0 buf count w = Done r w' ->
      -1 <= r /\
      exists i e, trace w' = trace w ++ [ev_ssl_write i buf count e] /\
        (0 < r -> r = e) /\
        (r = 0 -> e = 0 \/ e = POLARSSL_ERR_SSL_CONN_EOF)) /\
  (forall mk_io,
      mk_tls_writev fd0 mk_io w = Done r w' ->
      -1 <= r /\
      (0 <= r ->
       exists i buf e, trace w' = trace w ++ [ev_ssl_write i buf (total_len mk_io) e] /\
         (0 < r -> r = e) /\
         (r = 0 -> e = 0 \/ e = POLARSSL_ERR_SSL_CONN_EOF))).
Proof.
  split.
  - intros buf count H.
    destruct (mk_tls_write_binds _ _ _ _ _ _ H) as (i & e & Ht & _ & w1 & w2 & _ & Hr).
    destruct (handle_return_range _ _ _ _ Hr) as [[He ->] | [He [-> | [-> Heof]]]].
    + split; [lia|]. exists i, e. repeat split; auto; lia.
    + split; [lia|]. exists i, e. repeat split; auto; lia.
    + split; [lia|]. exists i, e. repeat split; auto; lia.
  - intros mk_io H. unfold mk_tls_writev in H. cbv zeta in H.
    inv_bind H as ssl w1 Hssl. inv_bind H as ok w2 Hok.
    pose proof (context_get_or_new_trace _ _ _ _ Hssl) as Ht1.
    assert (Ht2 : trace w2 = trace w1).
    { unfold sys_call in Hok. destruct (mem_alloc _ _). injection Hok as _ <-.
      reflexivity. }
    destruct ok; cbn [negb] in H.
    + destruct (iov_copy _ _ _) as [buf used].
      destruct (negb _); [discriminate|].
      inv_bind H as e w3 He.
      destruct (engine_call_Done _ _ _ _ _ _ He) as (i & h & _ & _ & _ & _ & _ & Ht3).
      destruct (handle_return_pool _ _ _ _ H) as [_ Ht4].
      assert (Htr : trace w' = trace w ++ [ev_ssl_write i buf (total_len mk_io) e])
        by (rewrite Ht4, Ht3, Ht2, Ht1; reflexivity).
      destruct (handle_return_range _ _ _ _ H) as [[He0 ->] | [He0 [-> | [-> Heof]]]].
      * split; [lia|]. intros _. exists i, buf, e. repeat split; auto; lia.
      * split; [lia|]. intros Hc. lia.
      * split; [lia|]. intros _. exists i, buf, e. repeat split; auto; lia.
    + inv_bind H as u w3 Hlog. injection H as <- _. split; [lia|]. lia.
Qed.

(** X7: outside a worker thread (no thread context) [context_get] returns
    NULL, and read, write, vectored write and file send stop at the assertion
    of [context_new]: none of them returns. *)
Theorem no_thread_context (fd0 : Z) (w : world) :
  local_context w = None ->
  context_get fd0 w = Done None w /\
  (forall count, mk_tls_read fd0 count w = Fault) /\
  (forall buf count, mk_tls_write fd0 buf count w = Fault) /\
  (forall mk_io, mk_tls_writev fd0 mk_io w = Fault) /\
  (forall fuel file_fd off n, mk_tls_send_file fuel fd0 file_fd off n w = Fault).
Proof.
  intros Hl.
  assert (Hg : context_get fd0 w = Done None w).
  { unfold context_get, bind, local_thread_context. rewrite Hl. reflexivity. }
  assert (Hn : context_get_or_new fd0 w = Fault).
  { unfold context_get_or_new. rewrite (bind_eq _ _ _ _ _ Hg).
    unfold context_new, bind, local_thread_context. rewrite Hl. reflexivity. }
  split; [exact Hg|].
  repeat split; intros;
    unfold mk_tls_read, mk_tls_write, mk_tls_writev, mk_tls_send_file; cbv zeta;
    unfold bind at 1; rewrite Hn; reflexivity.
Qed.

(** X8: when no context is bound to [fd0], no entry is free and the
    allocation of a new entry fails, [context_new] returns NULL; [mk_tls_read]
    and [mk_tls_write] hand that NULL to the engine and do not return. *)
Theorem context_allocation_failure (fd0 : Z) (w : world) (th : polar_thread_context) :
  local_context w = Some th ->
  bound_context fd0 w = None ->
  bound_context (-1) w = None ->
  (mem_alloc sizeof_polar_context_head (host w)).1 = false ->
  (exists w1, context_new fd0 w = Done None w1 /\ pool w1 = pool w) /\
  (forall count, mk_tls_read fd0 count w = Fault) /\
  (forall buf count, mk_tls_write fd0 buf count w = Fault).
Proof.
  intros Hth Hb Hfree Hm.
  assert (Hn : context_new fd0 w =
               Done None (Build_world (local_context w)
                            (mem_alloc sizeof_polar_context_head (host w)).2 (trace w))).
  { rewrite (context_new_eq _ _ _ Hth). unfold bound_context in Hfree.
    rewrite Hfree, Hm. reflexivity. }
  assert (Hg : context_get_or_new fd0 w =
               Done None (Build_world (local_context w)
                            (mem_alloc sizeof_polar_context_head (host w)).2 (trace w))).
  { unfold context_get_or_new. rewrite (bind_eq _ _ _ _ _ (context_get_eq fd0 w)), Hb.
    exact Hn. }
  split; [eexists; split; [exact Hn | reflexivity]|].
  split; intros; unfold mk_tls_read, mk_tls_write;
    rewrite (bind_eq _ _ _ _ _ Hg); reflexivity.
Qed.

End Results.

Section SendFileAccounting.
Context {P : Platform}.

Lemma bytes_accepted_app (a b : list event) :
  bytes_accepted (a ++ b) = bytes_accepted a + bytes_accepted b.
Proof.
  induction a as [|e a IH]; [reflexivity|].
  destruct e; simpl; rewrite IH; lia.
Qed.

Lemma bytes_accepted_nonneg (a : list event) : 0 <= bytes_accepted a.
Proof. induction a as [|e a IH]; [reflexivity|]. destruct e; simpl; lia. Qed.

Lemma wrap_signed_64_add (a b : Z) :
  wrap_signed 64 (wrap_signed 64 a + b) = wrap_signed 64 (a + b).
Proof.
  unfold wrap_signed. f_equal.
  replace ((a + 2 ^ (64 - 1)) mod 2 ^ 64 - 2 ^ (64 - 1) + b + 2 ^ (64 - 1))
    with ((a + 2 ^ (64 - 1)) mod 2 ^ 64 + b) by lia.
  rewrite Zplus_mod_idemp_l. f_equal. lia.
Qed.

Lemma wrap_signed_64_small (a : Z) :
  - 2 ^ 63 <= a < 2 ^ 63 -> wrap_signed 64 a = a.
Proof.
  intros H. unfold wrap_signed. change (2 ^ (64 - 1)) with (2 ^ 63).
  rewrite Z.mod_small; lia.
Qed.

(** What the loop of [mk_tls_send_file] has done when it ends: [sent] and the
    offset have advanced by the bytes the engine accepted, and the last result
    is not positive. *)
Lemma send_file_loop_Done (fuel : nat) (ssl : option nat)
    (file_fd remain sent off : Z) (w : world) (r sent' off' : Z) (w' : world) :
  to_ssize_t sent = sent -> to_off_t off = off ->
  send_file_loop fuel ssl file_fd remain sent off w = Done (r, sent', off') w' ->
  exists rest,
    trace w' = trace w ++ rest /\
    sent' = to_ssize_t (sent + bytes_accepted rest) /\
    off' = to_off_t (off + bytes_accepted rest) /\
    r <= 0.
Proof.
  revert remain sent off w.
  induction fuel as [|fuel IH]; intros remain sent off w Hs Ho H; [discriminate|].
  cbn [send_file_loop] in H.
  inv_bind H as rd w2 Hrd. rewrite pread_call_eq in Hrd. injection Hrd as <- <-.
  cbv zeta in H. inv_bind H as e w3 He.
  set (used := (pread file_fd SENDFILE_BUF_SIZE off (host w)).1.1) in *.
  assert (Hstep : exists ev1, trace w3 = (trace w ++ [ev_pread file_fd SENDFILE_BUF_SIZE off used]) ++ ev1
                              /\ bytes_accepted ev1 = Z.max 0 e).
  { destruct (used =? 0).
    - injection He as <- <-. exists []. rewrite app_nil_r. auto.
    - destruct (used <? 0).
      + inv_bind He as u w4 Hlog. injection Hlog as _ <-. injection He as <- <-.
        eexists [_]. split; reflexivity.
      + destruct (remain >? 0);
          destruct (engine_call_Done _ _ _ _ _ _ He) as (i & h & _ & _ & _ & _ & _ & Ht);
          eexists [_]; (split; [exact Ht|]); simpl; lia. }
  destruct Hstep as (ev1 & Ht3 & Hacc).
  destruct (Z.gtb_spec e 0) as [Hpos|Hle].
  - apply IH in H.
    + destruct H as (rest & Ht & -> & -> & Hr).
      exists ([ev_pread file_fd SENDFILE_BUF_SIZE off used] ++ ev1 ++ rest).
      split; [rewrite Ht, Ht3, <- !app_assoc; reflexivity|].
      rewrite !bytes_accepted_app. cbn [bytes_accepted]. rewrite Hacc.
      unfold to_ssize_t, to_off_t. rewrite !wrap_signed_64_add.
      repeat split; [f_equal; lia | f_equal; lia | exact Hr].
    + unfold to_ssize_t. rewrite <- (Z.add_0_r (wrap_signed 64 (sent + e))) at 1.
      rewrite wrap_signed_64_add. f_equal. lia.
    + unfold to_off_t. rewrite <- (Z.add_0_r (wrap_signed 64 (off + e))) at 1.
      rewrite wrap_signed_64_add. f_equal. lia.
  - injection H as <- <- <- <-.
    exists ([ev_pread file_fd SENDFILE_BUF_SIZE off used] ++ ev1).
    split; [rewrite Ht3, <- app_assoc; reflexivity|].
    rewrite bytes_accepted_app. cbn [bytes_accepted]. rewrite Hacc.
    replace (0 + Z.max 0 e) with 0 by lia. rewrite !Z.add_0_r.
    repeat split; [congruence | congruence | exact Hle].
Qed.

(** X9: when [mk_tls_send_file] returns, [*file_offset] has advanced by
    exactly the bytes [ssl_write] accepted during the call. If that number is
    positive (and a value of [int]) it is the value returned, whatever the last
    read or write of the loop reported; if it is zero the value returned is
    not positive. *)
Theorem send_file_accounting (fuel : nat) (fd0 file_fd off n : Z) (w : world)
    (r off' : Z) (w' : world) :
  to_off_t off = off ->
  mk_tls_send_file fuel fd0 file_fd off n w = Done (r, off') w' ->
  exists calls,
    trace w' = trace w ++ calls /\
    off' = to_off_t (off + bytes_accepted calls) /\
    (0 < bytes_accepted calls <= INT_MAX -> r = bytes_accepted calls) /\
    (bytes_accepted calls = 0 -> r <= 0).
Proof.
  intros Ho H. unfold mk_tls_send_file in H.
  inv_bind H as ssl w1 Hssl. inv_bind H as ok w2 Hok.
  pose proof (context_get_or_new_trace _ _ _ _ Hssl) as Ht1.
  assert (Ht2 : trace w2 = trace w1).
  { unfold sys_call in Hok. destruct (mem_alloc _ _). injection Hok as _ <-.
    reflexivity. }
  destruct ok; cbn [negb] in H.
  - inv_bind H as st w3 Hloop. destruct st as [[r0 sent] off0].
    apply send_file_loop_Done in Hloop; [|reflexivity|exact Ho].
    destruct Hloop as (rest & Ht3 & Hsent & Hoff & Hr0).
    rewrite Z.add_0_l in Hsent.
    pose proof (bytes_accepted_nonneg rest) as Hnn.
    assert (Hfin : trace w' = trace w3 /\ off' = off0 /\
                   ((sent >? 0) = true -> r = to_int sent) /\
                   ((sent >? 0) = false -> r <= 0)).
    { destruct (sent >? 0).
      - injection H as <- <- <-. repeat split; auto; discriminate.
      - inv_bind H as r1 w4 Hret. injection H as <- <- <-.
        split; [exact (proj2 (handle_return_pool _ _ _ _ Hret))|].
        split; [reflexivity|]. split; [discriminate|].
        intros _. exact (handle_return_nonpos _ _ _ _ Hr0 Hret). }
    destruct Hfin as (Ht4 & -> & Hp & Hz).
    exists rest. split; [rewrite Ht4, Ht3, Ht2, Ht1; reflexivity|].
    split; [exact Hoff|]. split.
    + intros [Hlo Hhi]. unfold INT_MAX in Hhi.
      assert (Hs : sent = bytes_accepted rest).
      { rewrite Hsent. apply wrap_signed_64_small. lia. }
      rewrite Hp by (rewrite Hs; apply Z.gtb_lt; lia).
      rewrite Hs. apply to_int_small. unfold INT_MAX. lia.
    + intros Hz0. apply Hz. rewrite Hsent, Hz0. reflexivity.
  - injection H as <- <- <-. exists [].
    rewrite app_nil_r, Z.add_0_r. cbn [bytes_accepted].
    repeat split; [congruence | congruence | lia | lia].
Qed.

(** X10: when the chunk buffer cannot be allocated, [mk_tls_send_file]
    returns -1 at once: the file is not read, the engine is not called and
    [*file_offset] stays where it was. *)
Theorem send_file_no_buffer (fuel : nat) (fd0 file_fd off n : Z) (w : world)
    (ssl : option nat) (w1 : world) :
  context_get_or_new fd0 w = Done ssl w1 ->
  (mem_alloc SENDFILE_BUF_SIZE (host w1)).1 = false ->
  exists w',
    mk_tls_send_file fuel fd0 file_fd off n w = Done (-1, off) w' /\
    trace w' = trace w /\ pool w' = pool w1.
Proof.
  intros Hssl Hm. unfold mk_tls_send_file. rewrite (bind_eq _ _ _ _ _ Hssl).
  unfold bind at 1, sys_call.
  destruct (mem_alloc SENDFILE_BUF_SIZE (host w1)) as [ok s]. cbn [fst] in Hm. subst ok.
  cbn [negb]. eexists. split; [reflexivity|].
  split; [exact (context_get_or_new_trace _ _ _ _ Hssl) | reflexivity].
Qed.

(** X11: when the first read of the file fails, [mk_tls_send_file] logs the
    failure, does not call the engine, leaves [*file_offset] alone and
    reports a hard error: -1 with an [errno] other than [EAGAIN], never
    WouldBlock (-1 is none of the engine's codes). *)
Theorem send_file_read_failure (fuel : nat) (fd0 file_fd off n : Z) (w : world)
    (ssl : option nat) (w1 : world) :
  headers_ok ->
  POLARSSL_ERR_NET_WANT_READ <> -1 ->
  POLARSSL_ERR_NET_WANT_WRITE <> -1 ->
  POLARSSL_ERR_SSL_CONN_EOF <> -1 ->
  context_get_or_new fd0 w = Done ssl w1 ->
  (mem_alloc SENDFILE_BUF_SIZE (host w1)).1 = true ->
  (pread file_fd SENDFILE_BUF_SIZE off
     (mem_alloc SENDFILE_BUF_SIZE (host w1)).2).1.1 < 0 ->
  exists r w',
    mk_tls_send_file (S fuel) fd0 file_fd off n w = Done (r, off) w' /\
    trace w' = trace w ++
      [ev_pread file_fd SENDFILE_BUF_SIZE off
         (pread file_fd SENDFILE_BUF_SIZE off
            (mem_alloc SENDFILE_BUF_SIZE (host w1)).2).1.1;
       ev_mk_err "Read from file failed"] /\
    io_result r (errno (host w')) = Error.
Proof.
  intros Hok Hr Hw He Hssl Hm Hused.
  pose proof (context_get_or_new_trace _ _ _ _ Hssl) as Ht.
  destruct (mem_alloc SENDFILE_BUF_SIZE (host w1)) as [ok s] eqn:Halloc.
  cbn [fst snd] in *. subst ok.
  set (used := (pread file_fd SENDFILE_BUF_SIZE off s).1.1) in *.
  set (w2 := Build_world (local_context w1) s (trace w1)).
  assert (Hloop : send_file_loop (S fuel) ssl file_fd (to_ssize_t n) 0 off w2 =
                  Done (-1, 0, off)
                    (Build_world (local_context w1)
                       (pread file_fd SENDFILE_BUF_SIZE off s).2
                       ((trace w1 ++ [ev_pread file_fd SENDFILE_BUF_SIZE off used]) ++
                        [ev_mk_err "Read from file failed"]))).
  { cbn [send_file_loop]. rewrite (bind_eq _ _ _ _ _ (pread_call_eq _ _ _ _)).
    cbv zeta. subst w2. cbn [host trace local_context]. fold used.
    destruct (Z.eqb_spec used 0); [lia|]. destruct (Z.ltb_spec used 0); [|lia].
    reflexivity. }
  match type of Hloop with _ = Done _ ?w3 =>
    destruct (handle_return_frame (-1) w3) as (r & w' & Hret & _ & _ & Htr)
  end.
  pose proof (handle_return_translated _ _ _ _ Hok Hret) as (_ & _ & Herr & _).
  exists r, w'. split; [|split].
  - unfold mk_tls_send_file. rewrite (bind_eq _ _ _ _ _ Hssl).
    unfold bind at 1, sys_call. rewrite Halloc. cbn [negb]. fold w2.
    rewrite (bind_eq _ _ _ _ _ Hloop). cbv beta iota zeta.
    change (0 >? 0) with false. cbv iota.
    rewrite (bind_eq _ _ _ _ _ Hret). reflexivity.
  - rewrite Htr. cbn [trace]. rewrite Ht, <- app_assoc. reflexivity.
  - apply Herr; [lia | congruence | congruence | congruence].
Qed.

End SendFileAccounting.

Section WritevErrors.
Context {P : Platform}.

(** X12: when the scratch buffer cannot be allocated, [mk_tls_writev] logs
    the failure and returns -1 without calling the engine. *)
Theorem writev_no_buffer (fd0 : Z) (mk_io : mk_iov) (w : world) (ssl : option nat)
    (w1 : world) :
  context_get_or_new fd0 w = Done ssl w1 ->
  (mem_alloc (total_len mk_io) (host w1)).1 = false ->
  exists w',
    mk_tls_writev fd0 mk_io w = Done (-1) w' /\
    trace w' = trace w ++ [ev_mk_err "malloc failed"] /\
    pool w' = pool w1.
Proof.
  intros Hssl Hm. unfold mk_tls_writev. cbv zeta. rewrite (bind_eq _ _ _ _ _ Hssl).
  unfold bind at 1, sys_call.
  destruct (mem_alloc (total_len mk_io) (host w1)) as [ok s]. cbn [fst] in Hm. subst ok.
  cbn [negb]. eexists. split; [reflexivity|]. cbn.
  rewrite (context_get_or_new_trace _ _ _ _ Hssl). auto.
Qed.

(** X13: a [struct mk_iov] whose [total_len] is not the sum of the lengths of
    its entries stops [mk_tls_writev] at its assertion, before the engine is
    called. *)
Theorem writev_length_mismatch (fd0 : Z) (mk_io : mk_iov) (w : world)
    (ssl : option nat) (w1 : world) :
  iov_idx mk_io = Z.of_nat (length (io mk_io)) ->
  total_len mk_io <> Z.of_nat (length (concat (io mk_io))) ->
  context_get_or_new fd0 w = Done ssl w1 ->
  (mem_alloc (total_len mk_io) (host w1)).1 = true ->
  mk_tls_writev fd0 mk_io w = Fault.
Proof.
  intros Hidx Hlen Hssl Hm. unfold mk_tls_writev. cbv zeta.
  rewrite (bind_eq _ _ _ _ _ Hssl). unfold bind at 1, sys_call.
  destruct (mem_alloc (total_len mk_io) (host w1)) as [ok s]. cbn [fst] in Hm. subst ok.
  cbn [negb]. rewrite Hidx, Nat2Z.id, firstn_all, iov_copy_concat.
  rewrite Z.add_0_l.
  destruct (Z.eqb_spec (Z.of_nat (length (concat (io mk_io)))) (total_len mk_io));
    [congruence | reflexivity].
Qed.

End WritevErrors.

Section Teardown.
Context {P : Platform}.

Lemma contexts_free_loop_seq (i : nat) (cur : polar_context_head)
    (next : list polar_context_head) :
  contexts_free_loop i cur next =
  flat_map (fun k => [rc_ssl_free k; rc_mem_free k]) (seq i (S (length next))).
Proof.
  revert i cur. induction next as [|n rest IH]; intros i cur; [reflexivity|].
  cbn [contexts_free_loop]. rewrite IH. reflexivity.
Qed.

(** X14: [contexts_free] releases every entry of the list exactly once, in
    list order, the engine's part before the memory; on an empty list it does
    nothing. *)
Theorem contexts_free_each_once (ctx : list polar_context_head) :
  contexts_free ctx =
  flat_map (fun k => [rc_ssl_free k; rc_mem_free k]) (seq 0 (length ctx)).
Proof.
  destruct ctx as [|cur next]; [reflexivity|].
  unfold contexts_free. apply contexts_free_loop_seq.
Qed.

(** X15: [context_get fd0] always returns and changes nothing. It returns
    the first entry bound to [fd0] when there is one, and NULL exactly when no
    entry is bound to [fd0] (in particular on an empty list). *)
Theorem context_get_first_bound (fd0 : Z) (w : world) :
  exists r,
    context_get fd0 w = Done r w /\
    match r with
    | Some i =>
        exists h, pool w !! i = Some h /\ fd h = fd0 /\
          forall j h', (j < i)%nat -> pool w !! j = Some h' -> fd h' <> fd0
    | None => forall j h, pool w !! j = Some h -> fd h <> fd0
    end.
Proof.
  exists (bound_context fd0 w). split; [apply context_get_eq|].
  unfold bound_context. destruct (context_scan fd0 (pool w)) as [i|] eqn:Hs.
  - exact (context_scan_Some _ _ _ Hs).
  - exact (context_scan_None _ _ Hs).
Qed.

End Teardown.

Section SendFileCap.
Context {P : Platform}.

Lemma within_count_nonpos (remain : Z) (tr : list event) :
  remain <= 0 -> within_count remain tr = true.
Proof.
  revert remain. induction tr as [|e tr IH]; intros remain H; [reflexivity|].
  destruct e; simpl; try (apply IH; exact H).
  destruct (Z.leb_spec remain 0); [|lia]. apply IH. lia.
Qed.

Lemma within_count_app (remain : Z) (a b : list event) :
  within_count remain (a ++ b) =
  within_count remain a && within_count (remain - bytes_accepted a) b.
Proof.
  revert remain. induction a as [|e a IH]; intros remain.
  - simpl. rewrite Z.sub_0_r. reflexivity.
  - destruct e; simpl; rewrite ?IH; try reflexivity.
    rewrite <- andb_assoc. do 3 f_equal. lia.
Qed.

Lemma send_file_loop_within_count (fuel : nat) (ssl : option nat)
    (file_fd remain sent off : Z) (w : world) (st : Z * Z * Z) (w' : world) :
  0 < remain <= SSIZE_MAX ->
  send_file_loop fuel ssl file_fd remain sent off w = Done st w' ->
  exists calls, trace w' = trace w ++ calls /\ within_count remain calls = true.
Proof.
  revert remain sent off w.
  induction fuel as [|fuel IH]; intros remain sent off w Hrem H; [discriminate|].
  cbn [send_file_loop] in H.
  inv_bind H as rd w2 Hrd. rewrite pread_call_eq in Hrd. injection Hrd as <- <-.
  cbv zeta in H. inv_bind H as e w3 He.
  set (used := (pread file_fd SENDFILE_BUF_SIZE off (host w)).1.1) in *.
  assert (Hstep : exists ev1,
             trace w3 = (trace w ++ [ev_pread file_fd SENDFILE_BUF_SIZE off used]) ++ ev1 /\
             bytes_accepted ev1 = Z.max 0 e /\ within_count remain ev1 = true).
  { destruct (used =? 0).
    - injection He as <- <-. exists []. rewrite app_nil_r. auto.
    - destruct (used <? 0).
      + inv_bind He as u w4 Hlog. injection Hlog as _ <-. injection He as <- <-.
        eexists [_]. repeat split; reflexivity.
      + destruct (Z.gtb_spec remain 0); [|lia].
        destruct (engine_call_Done _ _ _ _ _ _ He) as (i & h & _ & _ & _ & _ & _ & Ht).
        eexists [_]. split; [exact Ht|]. split; [simpl; lia|].
        simpl. destruct (Z.leb_spec remain 0); [lia|]. simpl.
        rewrite andb_true_r. apply Z.leb_le. destruct (used <? remain) eqn:E.
        * apply Z.ltb_lt in E. lia.
        * lia. }
  destruct Hstep as (ev1 & Ht3 & Hacc & Hcap).
  destruct (Z.gtb_spec e 0) as [Hpos|Hle].
  - destruct (Z.gtb_spec remain 0); [|lia].
    assert (Hrest : exists rest, trace w' = trace w3 ++ rest /\
                                 within_count (remain - e) rest = true).
    { destruct (Z.lt_ge_cases e remain) as [Hlt|Hge].
      - replace (to_ssize_t (remain - e)) with (remain - e) in H.
        + apply IH in H; [exact H | unfold SSIZE_MAX in *; lia].
        + symmetry. apply wrap_signed_64_small. unfold SSIZE_MAX in *. lia.
      - destruct (grows_send_file_loop _ _ _ _ _ _ _ _ _ H) as [rest Hr].
        exists rest. split; [exact Hr|]. apply within_count_nonpos. lia. }
    destruct Hrest as (rest & Ht & Hw).
    exists ([ev_pread file_fd SENDFILE_BUF_SIZE off used] ++ ev1 ++ rest).
    split; [rewrite Ht, Ht3, <- !app_assoc; reflexivity|].
    cbn [app within_count]. rewrite within_count_app, Hcap, Hacc.
    replace (remain - Z.max 0 e) with (remain - e) by lia. exact Hw.
  - injection H as <- <-.
    exists ([ev_pread file_fd SENDFILE_BUF_SIZE off used] ++ ev1).
    split; [rewrite Ht3, <- app_assoc; reflexivity|]. exact Hcap.
Qed.

(** X16: with a positive [file_count], every [ssl_write] that
    [mk_tls_send_file] makes before [file_count] bytes have been accepted is
    given at most the bytes that remain, however much the file read returned.
    (The calls made once [file_count] is reached are not bounded.) *)
Theorem send_file_within_count (fuel : nat) (fd0 file_fd off n : Z) (w : world)
    (a : Z * Z) (w' : world) :
  0 < n <= SSIZE_MAX ->
  mk_tls_send_file fuel fd0 file_fd off n w = Done a w' ->
  exists calls, trace w' = trace w ++ calls /\ within_count n calls = true.
Proof.
  intros Hn H. unfold mk_tls_send_file in H.
  inv_bind H as ssl w1 Hssl. inv_bind H as ok w2 Hok.
  pose proof (context_get_or_new_trace _ _ _ _ Hssl) as Ht1.
  assert (Ht2 : trace w2 = trace w1).
  { unfold sys_call in Hok. destruct (mem_alloc _ _). injection Hok as _ <-.
    reflexivity. }
  destruct ok; cbn [negb] in H.
  - inv_bind H as st w3 Hloop.
    replace (to_ssize_t n) with n in Hloop
      by (symmetry; apply wrap_signed_64_small; unfold SSIZE_MAX in *; lia).
    destruct (send_file_loop_within_count _ _ _ _ _ _ _ _ _ Hn Hloop)
      as (calls & Ht3 & Hc).
    assert (Hfin : trace w' = trace w3).
    { destruct st as [[r0 sent] off0]. destruct (sent >? 0).
      - injection H as _ <-. reflexivity.
      - inv_bind H as r1 w4 Hret. injection H as _ <-.
        exact (proj2 (handle_return_pool _ _ _ _ Hret)). }
    exists calls. split; [rewrite Hfin, Ht3, Ht2, Ht1; reflexivity | exact Hc].
  - injection H as _ <-. exists []. rewrite app_nil_r.
    split; [congruence | reflexivity].
Qed.

End SendFileCap.

(** * Configuration and start-up *)

Section ConfigProperties.
Context {P : Platform} {S : Settings} {C : Crypto P}.

Lemma config_section_other (conf : polar_config) (s : mk_rconf_section) :
  strcasecmp (section_name s) "TLS" <> 0 -> config_section conf s = conf.
Proof.
  intros H. unfold config_section.
  destruct (Z.eqb_spec (strcasecmp (section_name s) "TLS") 0); [contradiction|].
  reflexivity.
Qed.

Lemma fold_config_section_others (conf : polar_config) (l : list mk_rconf_section) :
  Forall (fun s => strcasecmp (section_name s) "TLS" <> 0) l ->
  fold_left config_section l conf = conf.
Proof.
  intros H. revert conf. induction H as [|s l Hs _ IH]; intros conf; [reflexivity|].
  simpl. rewrite (config_section_other _ _ Hs). apply IH.
Qed.

Lemma config_fallback_set (confdir : string) (conf : polar_config) :
  cert_file (config_fallback confdir conf) <> None /\
  key_file (config_fallback confdir conf) <> None /\
  dh_param_file (config_fallback confdir conf) <> None.
Proof.
  unfold config_fallback. cbn [cert_file key_file dh_param_file].
  repeat split;
    match goal with |- match ?x with _ => _ end <> None => destruct x; discriminate end.
Qed.

Lemma config_parse_fallback (confdir : string) (conf : polar_config) :
  exists conf', config_parse confdir conf = (0, config_fallback confdir conf').
Proof.
  unfold config_parse. destruct (config_create _) as [sections|]; eexists; reflexivity.
Qed.

(** X17: [config_parse] returns 0 and leaves the certificate path, the key
    path and the DH parameter path set, whatever the configuration file
    holds and whatever the structure held before. *)
Theorem config_parse_paths_set (confdir : string) (conf : polar_config) :
  fst (config_parse confdir conf) = 0 /\
  cert_file (snd (config_parse confdir conf)) <> None /\
  key_file (snd (config_parse confdir conf)) <> None /\
  dh_param_file (snd (config_parse confdir conf)) <> None.
Proof.
  destruct (config_parse_fallback confdir conf) as [conf' ->]. cbn [fst snd].
  split; [reflexivity|]. apply config_fallback_set.
Qed.

(** X18: on a structure without paths, when the configuration file cannot be
    read or holds no section named TLS, [config_parse] sets the three default
    paths under the configuration directory and leaves the chain file
    unset. *)
Theorem config_parse_defaults (confdir : string) :
  config_create (str_build confdir "tls.conf") = None \/
  (exists sections,
      config_create (str_build confdir "tls.conf") = Some sections /\
      Forall (fun s => strcasecmp (section_name s) "TLS" <> 0) sections) ->
  config_parse confdir (Build_polar_config None None None None) =
  (0, Build_polar_config (Some (String.append confdir "srv_cert.pem"))
                         None
                         (Some (String.append confdir "rsa.pem"))
                         (Some (String.append confdir "dhparam.pem"))).
Proof.
  unfold config_parse. intros [-> | (sections & -> & Hno)]; [reflexivity|].
  rewrite (fold_config_section_others _ _ Hno). reflexivity.
Qed.

(** X19: the last section named TLS decides: each path is the value of its
    key in that section, or the default when the section lacks the key (no
    chain file then), whatever earlier TLS sections and the structure held. *)
Theorem config_parse_last_section (confdir : string) (conf : polar_config)
    (before after : list mk_rconf_section) (s : mk_rconf_section) :
  config_create (str_build confdir "tls.conf") = Some (before ++ s :: after) ->
  strcasecmp (section_name s) "TLS" = 0 ->
  Forall (fun s' => strcasecmp (section_name s') "TLS" <> 0) after ->
  config_parse confdir conf =
  (0, Build_polar_config
        (Some (default (String.append confdir "srv_cert.pem")
                       (config_section_get_key s "CertificateFile")))
        (config_section_get_key s "CertificateChainFile")
        (Some (default (String.append confdir "rsa.pem")
                       (config_section_get_key s "RSAKeyFile")))
        (Some (default (String.append confdir "dhparam.pem")
                       (config_section_get_key s "DHParameterFile")))).
Proof.
  intros Hc Hs Hafter. unfold config_parse. rewrite Hc.
  rewrite fold_left_app. cbn [fold_left].
  rewrite (fold_config_section_others _ _ Hafter).
  unfold config_section at 1. rewrite Hs. cbn [Z.eqb negb].
  unfold config_fallback. cbn [cert_file cert_chain_file key_file dh_param_file].
  do 2 f_equal;
    match goal with |- context [config_section_get_key s ?k] =>
      destruct (config_section_get_key s k); reflexivity end.
Qed.

End ConfigProperties.

Section LoadProperties.
Context {P : Platform} {S : Settings} {C : Crypto P}.

Lemma lbind_Some {A B} (m : L A) (f : A -> L B) (s : sys extern) (a : A)
    (s1 : sys extern) (n1 : list notice) :
  m s = Some (a, s1, n1) ->
  lbind m f s =
  match f a s1 with
  | None => None
  | Some (b, s2, n2) => Some (b, s2, n1 ++ n2)
  end.
Proof. unfold lbind. intros ->. reflexivity. Qed.

Lemma polar_load_certs_Some (conf : polar_config) (s : sys extern) :
  exists r s' notes, polar_load_certs conf s = Some (r, s', notes) /\ (r = 0 \/ r = -1).
Proof.
  unfold polar_load_certs, lbind, lcall, lnote, lret.
  destruct (x509_crt_parse_file own_cert (cert_file conf) s) as [r1 s1].
  destruct (r1 <? 0).
  - destruct POLARSSL_CERTS_C; [|eexists _, _, _; split; [reflexivity | auto]].
    destruct (x509_crt_parse_test_srv_crt s1) as [r2 s2].
    destruct (negb (r2 =? 0)); eexists _, _, _; split; reflexivity || auto.
  - destruct (cert_chain_file conf) as [chain|];
      [|eexists _, _, _; split; [reflexivity | auto]].
    destruct (x509_crt_parse_file ca_cert_next (Some chain) s1) as [r2 s2].
    destruct (negb (r2 =? 0)); eexists _, _, _; split; reflexivity || auto.
Qed.

(** X20: [polar_load_certs] always returns, with 0 or -1. When the
    certificate file is read (a result that is not negative) it returns 0
    whatever happens to the chain file: a chain that cannot be read costs a
    warning, never an error. *)
Theorem polar_load_certs_chain_not_fatal (conf : polar_config) (s : sys extern) :
  exists r s' notes,
    polar_load_certs conf s = Some (r, s', notes) /\
    (r = 0 \/ r = -1) /\
    (0 <= (x509_crt_parse_file own_cert (cert_file conf) s).1 ->
     r = 0 /\ forall msg, err msg ∉ notes).
Proof.
  unfold polar_load_certs, lbind, lcall, lnote, lret.
  destruct (x509_crt_parse_file own_cert (cert_file conf) s) as [r1 s1]. cbn [fst].
  destruct (Z.ltb_spec r1 0) as [Hneg|Hpos].
  - destruct POLARSSL_CERTS_C.
    + destruct (x509_crt_parse_test_srv_crt s1) as [r2 s2].
      destruct (negb (r2 =? 0)); eexists _, _, _;
        (split; [reflexivity|]); (split; [auto|]); lia.
    + eexists _, _, _. split; [reflexivity|]. split; [auto|]. lia.
  - destruct (cert_chain_file conf) as [chain|].
    + destruct (x509_crt_parse_file ca_cert_next (Some chain) s1) as [r2 s2].
      destruct (negb (r2 =? 0)); eexists _, _, _;
        (split; [reflexivity|]); (split; [auto|]); intros _; (split; [reflexivity|]);
        intros msg Hin; cbn in Hin;
        repeat (apply elem_of_cons in Hin; destruct Hin as [Hin|Hin];
                [discriminate|]);
        apply elem_of_nil in Hin; exact Hin.
    + eexists _, _, _. split; [reflexivity|]. split; [auto|]. intros _.
      split; [reflexivity|]. intros msg Hin. apply elem_of_nil in Hin. exact Hin.
Qed.

(** X21: a DH parameter file that cannot be read is not an error: the two
    hard-coded numbers are read instead, P before G, and
    [polar_load_dh_param] returns 0 when both are accepted. When the file is
    read the hard-coded numbers are not touched. *)
Theorem polar_load_dh_param_fallback (conf : polar_config) (s : sys extern)
    (path : string) :
  dh_param_file conf = Some path ->
  let file := dhm_parse_dhmfile (Some path) s in
  let p := mpi_read_string dhm_P file.2 in
  let g := mpi_read_string dhm_G p.2 in
  (0 <= file.1 -> polar_load_dh_param conf s = Some (0, file.2, [])) /\
  (file.1 < 0 -> 0 <= p.1 -> 0 <= g.1 ->
   polar_load_dh_param conf s = Some (0, g.2, [])) /\
  (file.1 < 0 -> p.1 < 0 ->
   polar_load_dh_param conf s = Some (-1, p.2, [err "Load DH parameter failed"])) /\
  (file.1 < 0 -> 0 <= p.1 -> g.1 < 0 ->
   polar_load_dh_param conf s = Some (-1, g.2, [err "Load DH parameter failed"])).
Proof.
  intros Hp. cbv zeta.
  unfold polar_load_dh_param, lbind, lcall, lnote, lret, lassert. rewrite Hp.
  rewrite bool_decide_eq_true_2 by discriminate.
  destruct (dhm_parse_dhmfile (Some path) s) as [r1 s1] eqn:E1. cbn [fst snd].
  destruct (mpi_read_string dhm_P s1) as [r2 s2] eqn:E2. cbn [fst snd].
  destruct (mpi_read_string dhm_G s2) as [r3 s3] eqn:E3. cbn [fst snd].
  repeat split; intros;
    repeat first
      [ rewrite E2
      | rewrite E3
      | match goal with
        | |- context [?a <? 0] => destruct (Z.ltb_spec a 0); try lia
        end
      | progress cbv beta iota ];
    reflexivity.
Qed.

Lemma polar_load_key_Some (conf : polar_config) (s : sys extern) :
  key_file conf <> None ->
  exists r s' notes, polar_load_key conf s = Some (r, s', notes) /\ (r = 0 \/ r = -1).
Proof.
  intros Hk. unfold polar_load_key, lbind, lcall, lnote, lret, lassert.
  rewrite bool_decide_eq_true_2 by exact Hk.
  destruct (pk_parse_keyfile (key_file conf) s) as [r1 s1].
  destruct (r1 <? 0); [|eexists _, _, _; split; [reflexivity | auto]].
  destruct POLARSSL_CERTS_C; [|eexists _, _, _; split; [reflexivity | auto]].
  destruct (pk_parse_test_srv_key s1) as [r2 s2].
  destruct (negb (r2 =? 0)); eexists _, _, _; split; reflexivity || auto.
Qed.

Lemma polar_load_dh_param_Some (conf : polar_config) (s : sys extern) :
  dh_param_file conf <> None ->
  exists r s' notes,
    polar_load_dh_param conf s = Some (r, s', notes) /\ (r = 0 \/ r = -1).
Proof.
  intros Hk. unfold polar_load_dh_param, lbind, lcall, lnote, lret, lassert.
  rewrite bool_decide_eq_true_2 by exact Hk.
  destruct (dhm_parse_dhmfile (dh_param_file conf) s) as [r1 s1].
  destruct (r1 <? 0); [|eexists _, _, _; split; [reflexivity | auto]].
  destruct (mpi_read_string dhm_P s1) as [r2 s2].
  destruct (r2 <? 0); [eexists _, _, _; split; [reflexivity | auto]|].
  destruct (mpi_read_string dhm_G s2) as [r3 s3].
  destruct (r3 <? 0); eexists _, _, _; split; reflexivity || auto.
Qed.

(** X22: on a configuration that went through [config_parse] the assertions
    of [polar_load_key] and [polar_load_dh_param] hold: both functions
    return, with 0 or -1. On the zeroed structure, before [config_parse],
    both assertions fail. *)
Theorem load_after_config_parse (confdir : string) (conf : polar_config)
    (s : sys extern) :
  (exists r s' notes,
      polar_load_key (snd (config_parse confdir conf)) s = Some (r, s', notes) /\
      (r = 0 \/ r = -1)) /\
  (exists r s' notes,
      polar_load_dh_param (snd (config_parse confdir conf)) s = Some (r, s', notes) /\
      (r = 0 \/ r = -1)) /\
  polar_load_key (Build_polar_config None None None None) s = None /\
  polar_load_dh_param (Build_polar_config None None None None) s = None.
Proof.
  destruct (config_parse_fallback confdir conf) as [conf' ->]. cbn [snd].
  destruct (config_fallback_set confdir conf') as (_ & Hk & Hd).
  split; [exact (polar_load_key_Some _ s Hk)|].
  split; [exact (polar_load_dh_param_Some _ s Hd)|].
  split; reflexivity.
Qed.

Lemma polar_init_Some (conf : polar_config) (s : sys extern) :
  dh_param_file conf <> None ->
  exists r s' notes, polar_init conf s = Some (r, s', notes) /\ (r = 0 \/ r = -1).
Proof.
  intros Hd. unfold polar_init.
  unfold lbind at 1, ldo. unfold lbind at 1.
  destruct (polar_load_certs_Some conf (entropy_init (ssl_cache_init s)))
    as (r1 & s1 & n1 & E1 & _).
  rewrite (lbind_Some _ _ _ _ _ _ E1).
  destruct (negb (r1 =? 0)); [eexists _, _, _; split; [reflexivity | auto]|].
  destruct (polar_load_dh_param_Some conf s1 Hd) as (r2 & s2 & n2 & E2 & _).
  rewrite (lbind_Some _ _ _ _ _ _ E2).
  destruct (negb (r2 =? 0)); eexists _, _, _; split; reflexivity || auto.
Qed.

(** X23: once the server context is allocated, [mk_tls_plugin_init] returns
    0 with the configuration [config_parse] built, whatever [polar_init]
    returned: a failure to load the certificate or the DH parameters is not
    reported to the host. *)
Theorem mk_tls_plugin_init_returns_zero (confdir : string) (s : sys extern) :
  (mem_alloc_z sizeof_polar_server_context s).1 = true ->
  exists r0 s' notes,
    polar_init (snd (config_parse confdir (Build_polar_config None None None None)))
               (mem_alloc_z sizeof_polar_server_context s).2 = Some (r0, s', notes) /\
    (r0 = 0 \/ r0 = -1) /\
    mk_tls_plugin_init confdir s =
    Some ((0, snd (config_parse confdir (Build_polar_config None None None None))),
          s', notes).
Proof.
  intros Hm. unfold mk_tls_plugin_init.
  unfold lbind at 1, lcall.
  destruct (mem_alloc_z sizeof_polar_server_context s) as [ok s1]. cbn [fst snd] in *.
  subst ok. unfold lbind at 1, lassert. cbv zeta.
  destruct (config_parse_fallback confdir (Build_polar_config None None None None))
    as [conf' Hcp].
  assert (Hz : fst (config_parse confdir (Build_polar_config None None None None)) = 0)
    by (rewrite Hcp; reflexivity).
  assert (Hd : dh_param_file
                 (snd (config_parse confdir (Build_polar_config None None None None)))
               <> None)
    by (rewrite Hcp; apply config_fallback_set).
  destruct (polar_init_Some _ s1 Hd) as (r0 & s' & notes & E & Hr).
  exists r0, s', notes. split; [exact E|]. split; [exact Hr|].
  rewrite (lbind_Some _ _ _ _ _ _ E). unfold lret. rewrite Hz. cbn.
  rewrite app_nil_r. reflexivity.
Qed.

(** X24: when [polar_thread_init] returns 0 the thread has its thread context
    with an empty list of contexts; when it returns anything else, that is
    -1 and the thread-local pointer is what it was. [mk_tls_worker_init]
    returns only in the first case. *)
Theorem polar_thread_init_result (conf : polar_config) (w : world) :
  (forall r w',
      polar_thread_init conf w = Done r w' ->
      (r = 0 /\ local_context w' = Some (Build_polar_thread_context [])) \/
      (r = -1 /\ local_context w' = local_context w)) /\
  (forall w',
      mk_tls_worker_init conf w = Done tt w' ->
      local_context w' = Some (Build_polar_thread_context []) /\ pool w' = []).
Proof.
  assert (Hinit : forall r w',
      polar_thread_init conf w = Done r w' ->
      (r = 0 /\ local_context w' = Some (Build_polar_thread_context [])) \/
      (r = -1 /\ local_context w' = local_context w)).
  { intros r w' H. unfold polar_thread_init in H.
    inv_bind H as ok w1 Hok.
    assert (Hl1 : local_context w1 = local_context w).
    { unfold sys_call in Hok. destruct (mem_alloc _ _). injection Hok as _ <-.
      reflexivity. }
    destruct ok; cbn [negb] in H; [|injection H as <- <-; right; split; [reflexivity | exact Hl1]].
    inv_bind H as r1 w2 Hr1.
    assert (Hl2 : local_context w2 = local_context w1).
    { unfold sys_call in Hr1. destruct (ctr_drbg_init _). injection Hr1 as _ <-.
      reflexivity. }
    destruct (negb (r1 =? 0)).
    { inv_bind H as u w3 Hlog. injection Hlog as _ <-. injection H as <- <-.
      right. split; [reflexivity | cbn [local_context]; congruence]. }
    inv_bind H as u w3 Hpk. injection Hpk as _ <-.
    inv_bind H as r2 w4 Hkey.
    assert (Hl4 : local_context w4 = local_context w2).
    { unfold load in Hkey. cbn [host] in Hkey.
      destruct (polar_load_key conf _) as [[[a s'] notes]|]; [|discriminate].
      injection Hkey as _ <-. reflexivity. }
    destruct (negb (r2 =? 0)).
    - injection H as <- <-. right. split; [reflexivity | cbn [local_context]; congruence].
    - inv_bind H as u' w5 Hset. injection Hset as _ <-. injection H as <- <-.
      left. auto. }
  split; [exact Hinit|].
  intros w' H. unfold mk_tls_worker_init in H. inv_bind H as r w1 Hr.
  destruct (Z.eqb_spec r 0) as [->|Hne]; cbn [negb] in H; [|discriminate].
  injection H as <-. destruct (Hinit _ _ Hr) as [[_ Hl] | [Hc _]]; [|discriminate].
  split; [exact Hl|]. unfold pool. rewrite Hl. reflexivity.
Qed.

End LoadProperties.

(** * The code on the plaintext platform *)

Section OnPlain.
Import Plain.
#[local] Existing Instance Plain.platform.

(** C1: a file of eight bytes sent with [file_count = 3]. The first
    [ssl_write] is cut to the three bytes that remain; [remain] is then 0, the
    loop goes on, and the next [ssl_write] is given the other five bytes: eight
    bytes are handed to the engine and 8 is returned. *)
Theorem mk_tls_send_file_exceeds_count :
  exists w',
    mk_tls_send_file 3 5 9 0 3 fresh = Done (8, 8) w' /\
    trace w' = [ev_pread 9 16384 0 8;
                ev_ssl_write 0 bytes8 3 3;
                ev_pread 9 16384 3 5;
                ev_ssl_write 0 (drop 3 bytes8) 5 5;
                ev_pread 9 16384 8 0] /\
    bytes_handed (trace w') = 8 /\
    bytes_accepted (trace w') = 8 /\
    wire (outside (host w')) = bytes8.
Proof. eexists. repeat split. Qed.

(** C4, as stated, fails: with [file_count = 0] the file is read and all its
    eight bytes are sent, and 8 is returned. *)
Lemma send_file_count_zero_sends_file :
  exists w',
    mk_tls_send_file 2 5 9 0 0 fresh = Done (8, 8) w' /\
    trace w' = [ev_pread 9 16384 0 8;
                ev_ssl_write 0 bytes8 8 8;
                ev_pread 9 16384 8 0] /\
    bytes_handed (trace w') = 8 /\
    filter is_pread (trace w') <> [].
Proof. eexists. repeat split. discriminate. Qed.

(** C3, as stated, fails for reads: the engine has eight bytes of plaintext
    for the connection, [ssl_read] delivers three of them and returns 3, and
    [mk_tls_read] returns 8. *)
Lemma mk_tls_read_adds_buffered :
  exists w',
    mk_tls_read 5 3 (state [bound_reading 5 bytes8] []) = Done (8, take 3 bytes8) w' /\
    trace w' = [ev_ssl_read 0 3 3] /\
    8 <> 3.
Proof.
  eexists. split; [vm_compute; reflexivity|]. split; [reflexivity | discriminate].
Qed.

(** C10, as stated, fails: after reads on 5 and 6 and a close of 6 the list
    holds a context bound to 5 and a free one; [context_new 5] binds the free
    one, at position 1, and [context_get 5] finds the one at position 0. *)
Lemma context_new_then_get_other :
  exists w1,
    reachable (after [op_read 5 4; op_read 6 4; op_close 6]) /\
    fds (after [op_read 5 4; op_read 6 4; op_close 6]) = [5; -1] /\
    context_new 5 (after [op_read 5 4; op_read 6 4; op_close 6]) = Done (Some 1%nat) w1 /\
    context_get 5 w1 = Done (Some 0%nat) w1.
Proof.
  eexists. split; [|repeat split].
  apply (run_all_reachable [op_read 5 4; op_read 6 4; op_close 6] fresh).
  - apply reachable_init.
  - reflexivity.
Qed.

(** ** The theorems at work *)

Lemma mk_tls_read_reports_buffered_witness :
  exists r buf w',
    mk_tls_read 5 3 (state [bound_reading 5 bytes8] []) = Done (r, buf) w' /\
    r = 8 /\ buf = take 3 bytes8 /\
    exists i e h,
      trace w' = [] ++ [ev_ssl_read i 3 e] /\
      pool w' !! i = Some h /\
      (0 < e ->
       e + Z.of_N (polar_get_bytes_avail (context h)) <= INT_MAX ->
       r = e + Z.of_N (polar_get_bytes_avail (context h))).
Proof.
  eexists _, _, _. split; [vm_compute; reflexivity|]. split; [reflexivity|].
  split; [reflexivity|].
  eapply (mk_tls_read_reports_buffered 5 3 (state [bound_reading 5 bytes8] [])).
  vm_compute. reflexivity.
Defined.

Lemma headers_ok_plain : @headers_ok platform.
Proof. unfold headers_ok. cbn. lia. Defined.

Lemma engine_result_translation_witness :
  @headers_ok platform /\
  context_get_or_new 5 fresh = Done (Some 0%nat) (state [bound 5] bytes8) /\
  pool (state [bound 5] bytes8) !! 0%nat = Some (bound 5) /\
  (let call := ssl_write (context (bound 5)) (fd (bound 5)) bytes8 8
                         (host (state [bound 5] bytes8)) in
   exists r w',
     mk_tls_write 5 bytes8 8 fresh = Done r w' /\
     trace w' = trace fresh ++ [ev_ssl_write 0 bytes8 8 call.1.1] /\
     pool w' = <[0%nat := Build_polar_context_head call.1.2 (fd (bound 5))]>
                 (pool (state [bound 5] bytes8)) /\
     outside (host w') = outside call.2 /\
     translated call.1.1 r (errno (host w'))) /\
  context_get_or_new 5 (state [bound 5] []) = Done (Some 0%nat) (state [bound 5] []) /\
  pool (state [bound 5] []) !! 0%nat = Some (bound 5) /\
  (let call := ssl_read (context (bound 5)) (fd (bound 5)) 4
                        (host (state [bound 5] [])) in
   let e := call.1.1.1 in
   let avail := polar_get_bytes_avail call.1.2 in
   exists r w',
     mk_tls_read 5 4 (state [bound 5] []) = Done (r, call.1.1.2) w' /\
     trace w' = trace (state [bound 5] []) ++ [ev_ssl_read 0 4 e] /\
     pool w' = <[0%nat := Build_polar_context_head call.1.2 (fd (bound 5))]>
                 (pool (state [bound 5] [])) /\
     outside (host w') = outside call.2 /\
     (e <= 0 \/ avail = 0%N -> translated e r (errno (host w'))) /\
     (0 < e -> (0 < avail)%N -> r = to_int (e + Z.of_N avail))).
Proof.
  split; [exact headers_ok_plain|].
  split; [reflexivity|]. split; [reflexivity|].
  split; [exact (proj1 (proj2 (engine_result_translation headers_ok_plain))
                   5 bytes8 8 fresh 0%nat (state [bound 5] bytes8) (bound 5)
                   eq_refl eq_refl)|].
  split; [reflexivity|]. split; [reflexivity|].
  exact (proj2 (proj2 (engine_result_translation headers_ok_plain))
           5 4 (state [bound 5] []) 0%nat (state [bound 5] []) (bound 5)
           eq_refl eq_refl).
Defined.

Lemma one_context_per_descriptor_witness :
  reachable (after [op_read 5 4; op_read 6 4; op_close 6; op_write 7 bytes8 8]) /\
  5 <> -1 /\
  at_most_one_bound 5 (after [op_read 5 4; op_read 6 4; op_close 6; op_write 7 bytes8 8]).
Proof.
  assert (Hr : reachable
                 (after [op_read 5 4; op_read 6 4; op_close 6; op_write 7 bytes8 8])).
  { apply (run_all_reachable
             [op_read 5 4; op_read 6 4; op_close 6; op_write 7 bytes8 8] fresh).
    - apply reachable_init.
    - reflexivity. }
  split; [exact Hr|]. split; [lia|].
  apply (one_context_per_descriptor _ 5 Hr). lia.
Defined.

Lemma context_unset_spec_witness :
  pool (state [bound 5; bound 6] []) !! 1%nat = Some (bound 6) /\
  context_unset 6 (Some 1%nat) (state [bound 5; bound 6] []) =
  Done 0 (Build_world (Some (Build_polar_thread_context [bound 5; bound (-1)]))
                      (start []) [ev_ssl_session_reset 1]) /\
  context_unset 7 (Some 1%nat) (state [bound 5; bound 6] []) =
  Done 0 (Build_world (Some (Build_polar_thread_context [bound 5; bound 6]))
                      (start []) [ev_mk_err "Context already unset."]).
Proof.
  split; [reflexivity|]. split.
  - apply (proj1 (context_unset_spec 6 1 (state [bound 5; bound 6] []) (bound 6)
                    eq_refl)).
    reflexivity.
  - apply (proj2 (context_unset_spec 7 1 (state [bound 5; bound 6] []) (bound 6)
                    eq_refl)).
    discriminate.
Defined.

Lemma freed_slot_reused_witness :
  context_new 5 (state [bound 4] []) = Done (Some 1%nat) (state [bound 4; bound 5] []) /\
  exists w2 k w3,
    mk_tls_close 5 (state [bound 4; bound 5] []) = Done 0 w2 /\
    bound_context 5 (state [bound 4; bound 5] []) = Some k /\
    context_new 6 w2 = Done (Some k) w3 /\
    length (pool w3) = length (pool (state [bound 4; bound 5] [])) /\
    exists h, pool w3 !! k = Some h /\ fd h = 6.
Proof.
  split; [reflexivity|].
  apply (freed_slot_reused 5 6 (state [bound 4] []) 1 (state [bound 4; bound 5] [])).
  reflexivity.
Defined.

Lemma mk_tls_writev_concat_witness :
  mk_iov_wf three_buffers /\
  context_get_or_new 5 fresh = Done (Some 0%nat) (state [bound 5] bytes8) /\
  pool (state [bound 5] bytes8) !! 0%nat = Some (bound 5) /\
  (mem_alloc (total_len three_buffers) (host (state [bound 5] bytes8))).1 = true /\
  exists r w',
    mk_tls_writev 5 three_buffers fresh = Done r w' /\
    r = 4 /\
    trace w' = trace fresh ++
               [ev_ssl_write 0 [Byte.x01; Byte.x02; Byte.x03; Byte.x04] 4 4] /\
    wire (outside (host w')) = [Byte.x01; Byte.x02; Byte.x03; Byte.x04].
Proof.
  assert (Hwf : mk_iov_wf three_buffers) by (split; reflexivity).
  split; [exact Hwf|]. split; [reflexivity|]. split; [reflexivity|].
  split; [reflexivity|].
  destruct (mk_tls_writev_concat 5 three_buffers fresh 0 (state [bound 5] bytes8)
              (bound 5) Hwf eq_refl eq_refl eq_refl)
    as (r & w' & Hrun & Htr & _ & _ & _ & _ & Hconv).
  destruct (Hconv wire (fun c bio buf len s0 => eq_refl)) as [_ Hall].
  destruct (Hall eq_refl) as [Hr Hw].
  exists r, w'. split; [exact Hrun|]. split; [exact Hr|]. split; [exact Htr|].
  exact Hw.
Defined.

Lemma context_new_then_get_witness :
  bound_context 5 (state [bound 4; bound (-1)] []) = None /\
  context_new 5 (state [bound 4; bound (-1)] []) =
  Done (Some 1%nat) (state [bound 4; bound 5] []) /\
  context_get 5 (state [bound 4; bound 5] []) =
  Done (Some 1%nat) (state [bound 4; bound 5] []).
Proof.
  split; [reflexivity|]. split; [reflexivity|].
  apply (context_new_then_get 5 (state [bound 4; bound (-1)] [])); reflexivity.
Defined.

Lemma send_file_count_zero_witness :
  context_get_or_new 5 (state [] []) = Done (Some 0%nat) (state [bound 5] []) /\
  (mem_alloc SENDFILE_BUF_SIZE (host (state [bound 5] []))).1 = true /\
  (exists w',
      mk_tls_send_file 1 5 9 0 0 (state [] []) = Done (0, 0) w' /\
      trace w' = trace (state [] []) ++ [ev_pread 9 SENDFILE_BUF_SIZE 0 0] /\
      pool w' = pool (state [bound 5] []) /\
      host w' = (pread 9 SENDFILE_BUF_SIZE 0
                   (mem_alloc SENDFILE_BUF_SIZE (host (state [bound 5] []))).2).2) /\
  (exists r w',
      mk_tls_send_file 1 5 9 (-1) 0 (state [] []) = Done (r, -1) w' /\
      r <= 0 /\
      trace w' = trace (state [] []) ++
                 [ev_pread 9 SENDFILE_BUF_SIZE (-1) (-1);
                  ev_mk_err "Read from file failed"] /\
      pool w' = pool (state [bound 5] [])) /\
  context_get_or_new 5 fresh = Done (Some 0%nat) (state [bound 5] bytes8) /\
  (mem_alloc SENDFILE_BUF_SIZE (host (state [bound 5] bytes8))).1 = true /\
  exists a w',
    mk_tls_send_file 2 5 9 0 0 fresh = Done a w' /\
    exists rest, trace w' = trace fresh ++ ev_pread 9 SENDFILE_BUF_SIZE 0 8 :: rest.
Proof.
  split; [reflexivity|]. split; [reflexivity|].
  split; [exact (proj1 (send_file_count_zero 0 5 9 0 (state [] []) (Some 0%nat)
                          (state [bound 5] []) eq_refl eq_refl) eq_refl)|].
  split; [exact (proj1 (proj2 (send_file_count_zero 0 5 9 (-1) (state [] [])
                                 (Some 0%nat) (state [bound 5] []) eq_refl eq_refl))
                   eq_refl)|].
  split; [reflexivity|]. split; [reflexivity|].
  eexists _, _. split; [vm_compute; reflexivity|].
  eapply (proj2 (proj2 (send_file_count_zero 1 5 9 0 fresh (Some 0%nat)
                          (state [bound 5] bytes8) eq_refl eq_refl))).
  vm_compute. reflexivity.
Defined.

End OnPlain.

(** * The further properties on the plaintext platform *)

Section OnPlainMore.
Import Plain PlainStart.
#[local] Existing Instance Plain.platform.
#[local] Existing Instance PlainStart.settings.
#[local] Existing Instance PlainStart.crypto.

Lemma pool_growth_witness :
  exists w',
    run (op_read 5 4) (state [bound 4; bound (-1)] []) = Done tt w' /\
    (length (pool (state [bound 4; bound (-1)] [])) <= length (pool w')
     <= S (length (pool (state [bound 4; bound (-1)] []))))%nat /\
    (bound_context (op_fd (op_read 5 4)) (state [bound 4; bound (-1)] []) <> None \/
     bound_context (-1) (state [bound 4; bound (-1)] []) <> None ->
     length (pool w') = length (pool (state [bound 4; bound (-1)] []))) /\
    (forall fd0, op_read 5 4 = op_close fd0 ->
                 length (pool w') = length (pool (state [bound 4; bound (-1)] []))).
Proof.
  eexists. split; [vm_compute; reflexivity|].
  apply (pool_growth (op_read 5 4) (state [bound 4; bound (-1)] [])).
  vm_compute. reflexivity.
Defined.

Lemma one_entry_touched_witness :
  exists w',
    run (op_close 5) (state [bound 4; bound 5] []) = Done tt w' /\
    exists i, forall j, j <> i ->
      pool w' !! j = pool (state [bound 4; bound 5] []) !! j.
Proof.
  eexists. split; [vm_compute; reflexivity|].
  apply (one_entry_touched (op_close 5) (state [bound 4; bound 5] [])).
  vm_compute. reflexivity.
Defined.

Lemma operation_leaves_context_bound_witness :
  exists a w',
    mk_tls_read 5 3 (state [bound 4] bytes8) = Done a w' /\
    exists i e,
      trace w' = trace (state [bound 4] bytes8) ++ [ev_ssl_read i 3 e] /\
      context_get 5 w' = Done (Some i) w'.
Proof.
  eexists _, _. split; [vm_compute; reflexivity|].
  eapply (proj1 (operation_leaves_context_bound 5 (state [bound 4] bytes8))).
  vm_compute. reflexivity.
Defined.

Lemma read_then_write_same_context_witness :
  exists a w1 r w2,
    mk_tls_read 5 3 (state [bound 4] bytes8) = Done a w1 /\
    mk_tls_write 5 bytes8 8 w1 = Done r w2 /\
    exists i e1 e2,
      trace w2 = trace (state [bound 4] bytes8) ++
                 [ev_ssl_read i 3 e1; ev_ssl_write i bytes8 8 e2] /\
      length (pool w2) = length (pool w1).
Proof.
  eexists _, _, _, _. split; [vm_compute; reflexivity|].
  split; [vm_compute; reflexivity|].
  eapply (read_then_write_same_context 5 3 bytes8 8 (state [bound 4] bytes8));
    vm_compute; reflexivity.
Defined.

Lemma close_unbinds_witness :
  reachable (after [op_read 5 4; op_read 6 4]) /\
  5 <> -1 /\
  exists w',
    mk_tls_close 5 (after [op_read 5 4; op_read 6 4]) = Done 0 w' /\
    bound_context 5 w' = None /\
    mk_tls_close 5 w' =
    Done 0 (Build_world (local_context w') (net_close 5 (host w'))
                        (trace w' ++ [ev_net_close 5])).
Proof.
  assert (Hr : reachable (after [op_read 5 4; op_read 6 4])).
  { apply (run_all_reachable [op_read 5 4; op_read 6 4] fresh).
    - apply reachable_init.
    - reflexivity. }
  split; [exact Hr|]. split; [lia|].
  apply (close_unbinds 5 _ Hr). lia.
Defined.

Lemma write_result_range_witness :
  exists r w',
    mk_tls_write 5 bytes8 8 fresh = Done r w' /\
    -1 <= r /\
    exists i e, trace w' = trace fresh ++ [ev_ssl_write i bytes8 8 e] /\
      (0 < r -> r = e) /\
      (r = 0 -> e = 0 \/ e = POLARSSL_ERR_SSL_CONN_EOF).
Proof.
  eexists _, _. split; [vm_compute; reflexivity|].
  eapply (proj1 (write_result_range 5 fresh _ _)).
  vm_compute. reflexivity.
Defined.

Lemma no_thread_context_witness :
  local_context no_thread = None /\
  context_get 5 no_thread =
  Done None no_thread /\
  (forall count, mk_tls_read 5 count no_thread = Fault) /\
  (forall buf count, mk_tls_write 5 buf count no_thread = Fault) /\
  (forall mk_io, mk_tls_writev 5 mk_io no_thread = Fault) /\
  (forall fuel file_fd off n,
      mk_tls_send_file fuel 5 file_fd off n no_thread = Fault).
Proof.
  split; [reflexivity|].
  apply (no_thread_context 5 no_thread). reflexivity.
Defined.

Lemma context_allocation_failure_witness :
  local_context (state_oom [bound_oom 4]) =
  Some (@Build_polar_thread_context platform_oom [bound_oom 4]) /\
  @bound_context platform_oom 5 (state_oom [bound_oom 4]) = None /\
  @bound_context platform_oom (-1) (state_oom [bound_oom 4]) = None /\
  (@mem_alloc platform_oom (@sizeof_polar_context_head platform_oom)
     (host (state_oom [bound_oom 4]))).1 = false /\
  (exists w1, @context_new platform_oom 5 (state_oom [bound_oom 4]) = Done None w1 /\
              pool w1 = pool (state_oom [bound_oom 4])) /\
  (forall count, @mk_tls_read platform_oom 5 count (state_oom [bound_oom 4]) = Fault) /\
  (forall buf count,
      @mk_tls_write platform_oom 5 buf count (state_oom [bound_oom 4]) = Fault).
Proof.
  split; [reflexivity|]. split; [reflexivity|]. split; [reflexivity|].
  split; [reflexivity|].
  apply (@context_allocation_failure platform_oom 5 (state_oom [bound_oom 4])
           (@Build_polar_thread_context platform_oom [bound_oom 4]));
    reflexivity.
Defined.

Lemma send_file_accounting_witness :
  to_off_t 0 = 0 /\
  exists r off' w',
    mk_tls_send_file 3 5 9 0 3 fresh = Done (r, off') w' /\
    exists calls,
      trace w' = trace fresh ++ calls /\
      off' = to_off_t (0 + bytes_accepted calls) /\
      (0 < bytes_accepted calls <= INT_MAX -> r = bytes_accepted calls) /\
      (bytes_accepted calls = 0 -> r <= 0).
Proof.
  split; [reflexivity|].
  eexists _, _, _. split; [vm_compute; reflexivity|].
  apply (send_file_accounting 3 5 9 0 3 fresh); [reflexivity|].
  vm_compute. reflexivity.
Defined.

Lemma send_file_no_buffer_witness :
  @context_get_or_new platform_oom 5 (state_oom [bound_oom 5]) =
  Done (Some 0%nat) (state_oom [bound_oom 5]) /\
  (@mem_alloc platform_oom (@SENDFILE_BUF_SIZE platform_oom)
     (host (state_oom [bound_oom 5]))).1 = false /\
  exists w',
    @mk_tls_send_file platform_oom 3 5 9 0 8 (state_oom [bound_oom 5]) =
    Done (-1, 0) w' /\
    trace w' = trace (state_oom [bound_oom 5]) /\
    pool w' = pool (state_oom [bound_oom 5]).
Proof.
  split; [reflexivity|]. split; [reflexivity|].
  apply (@send_file_no_buffer platform_oom 3 5 9 0 8 (state_oom [bound_oom 5])
           (Some 0%nat) (state_oom [bound_oom 5])); reflexivity.
Defined.

Lemma send_file_read_failure_witness :
  @headers_ok platform /\
  @POLARSSL_ERR_NET_WANT_READ platform <> -1 /\
  @POLARSSL_ERR_NET_WANT_WRITE platform <> -1 /\
  @POLARSSL_ERR_SSL_CONN_EOF platform <> -1 /\
  context_get_or_new 5 (state [bound 5] bytes8) =
  Done (Some 0%nat) (state [bound 5] bytes8) /\
  (mem_alloc SENDFILE_BUF_SIZE (host (state [bound 5] bytes8))).1 = true /\
  (pread 9 SENDFILE_BUF_SIZE (-1)
     (mem_alloc SENDFILE_BUF_SIZE (host (state [bound 5] bytes8))).2).1.1 < 0 /\
  exists r w',
    mk_tls_send_file 1 5 9 (-1) 8 (state [bound 5] bytes8) = Done (r, -1) w' /\
    trace w' = trace (state [bound 5] bytes8) ++
      [ev_pread 9 SENDFILE_BUF_SIZE (-1)
         (pread 9 SENDFILE_BUF_SIZE (-1)
            (mem_alloc SENDFILE_BUF_SIZE (host (state [bound 5] bytes8))).2).1.1;
       ev_mk_err "Read from file failed"] /\
    io_result r (errno (host w')) = Error.
Proof.
  assert (H1 : @POLARSSL_ERR_NET_WANT_READ platform <> -1) by discriminate.
  assert (H2 : @POLARSSL_ERR_NET_WANT_WRITE platform <> -1) by discriminate.
  assert (H3 : @POLARSSL_ERR_SSL_CONN_EOF platform <> -1) by discriminate.
  assert (H4 : (pread 9 SENDFILE_BUF_SIZE (-1)
                  (mem_alloc SENDFILE_BUF_SIZE (host (state [bound 5] bytes8))).2).1.1 < 0)
    by reflexivity.
  split; [exact headers_ok_plain|]. split; [exact H1|]. split; [exact H2|].
  split; [exact H3|]. split; [reflexivity|]. split; [reflexivity|].
  split; [exact H4|].
  exact (send_file_read_failure 0 5 9 (-1) 8 (state [bound 5] bytes8) (Some 0%nat)
           (state [bound 5] bytes8) headers_ok_plain H1 H2 H3 eq_refl eq_refl H4).
Defined.

Lemma writev_no_buffer_witness :
  @context_get_or_new platform_oom 5 (state_oom [bound_oom 5]) =
  Done (Some 0%nat) (state_oom [bound_oom 5]) /\
  (@mem_alloc platform_oom (total_len three_buffers)
     (host (state_oom [bound_oom 5]))).1 = false /\
  exists w',
    @mk_tls_writev platform_oom 5 three_buffers (state_oom [bound_oom 5]) =
    Done (-1) w' /\
    trace w' = trace (state_oom [bound_oom 5]) ++ [ev_mk_err "malloc failed"] /\
    pool w' = pool (state_oom [bound_oom 5]).
Proof.
  split; [reflexivity|]. split; [reflexivity|].
  apply (@writev_no_buffer platform_oom 5 three_buffers (state_oom [bound_oom 5])
           (Some 0%nat) (state_oom [bound_oom 5])); reflexivity.
Defined.

Lemma writev_length_mismatch_witness :
  iov_idx (Build_mk_iov [[Byte.x01]; [Byte.x02]] 2 5) =
  Z.of_nat (length (io (Build_mk_iov [[Byte.x01]; [Byte.x02]] 2 5))) /\
  total_len (Build_mk_iov [[Byte.x01]; [Byte.x02]] 2 5) <>
  Z.of_nat (length (concat (io (Build_mk_iov [[Byte.x01]; [Byte.x02]] 2 5)))) /\
  context_get_or_new 5 (state [bound 5] []) = Done (Some 0%nat) (state [bound 5] []) /\
  (mem_alloc (total_len (Build_mk_iov [[Byte.x01]; [Byte.x02]] 2 5))
     (host (state [bound 5] []))).1 = true /\
  mk_tls_writev 5 (Build_mk_iov [[Byte.x01]; [Byte.x02]] 2 5) (state [bound 5] []) =
  Fault.
Proof.
  assert (H : total_len (Build_mk_iov [[Byte.x01]; [Byte.x02]] 2 5) <>
              Z.of_nat (length (concat (io (Build_mk_iov [[Byte.x01]; [Byte.x02]] 2 5)))))
    by discriminate.
  split; [reflexivity|]. split; [exact H|]. split; [reflexivity|].
  split; [reflexivity|].
  exact (writev_length_mismatch 5 (Build_mk_iov [[Byte.x01]; [Byte.x02]] 2 5)
           (state [bound 5] []) (Some 0%nat) (state [bound 5] [])
           eq_refl H eq_refl eq_refl).
Defined.

Lemma send_file_within_count_witness :
  0 < 3 <= SSIZE_MAX /\
  exists a w',
    mk_tls_send_file 3 5 9 0 3 fresh = Done a w' /\
    exists calls, trace w' = trace fresh ++ calls /\ within_count 3 calls = true.
Proof.
  assert (H : 0 < 3 <= SSIZE_MAX) by (unfold SSIZE_MAX; lia).
  split; [exact H|].
  eexists _, _. split; [vm_compute; reflexivity|].
  eapply (send_file_within_count 3 5 9 0 3 fresh); [exact H|].
  vm_compute. reflexivity.
Defined.

Lemma config_parse_defaults_witness :
  (config_create (str_build "/nowhere/" "tls.conf") = None \/
   exists sections,
     config_create (str_build "/nowhere/" "tls.conf") = Some sections /\
     Forall (fun s => strcasecmp (section_name s) "TLS" <> 0) sections) /\
  config_parse "/nowhere/" (Build_polar_config None None None None) =
  (0, Build_polar_config (Some (String.append "/nowhere/" "srv_cert.pem"))
                         None
                         (Some (String.append "/nowhere/" "rsa.pem"))
                         (Some (String.append "/nowhere/" "dhparam.pem"))).
Proof.
  assert (H : config_create (str_build "/nowhere/" "tls.conf") = None \/
              exists sections,
                config_create (str_build "/nowhere/" "tls.conf") = Some sections /\
                Forall (fun s => strcasecmp (section_name s) "TLS" <> 0) sections)
    by (left; reflexivity).
  split; [exact H|]. exact (config_parse_defaults "/nowhere/" H).
Defined.

Lemma config_parse_last_section_witness :
  config_create (str_build "/etc/monkey/" "tls.conf") =
  Some (take 2 conf_file ++ Build_section "TLS"
                              [("CertificateFile", "/etc/ssl/cert.pem");
                               ("RSAKeyFile", "/etc/ssl/key.pem")]%string
                            :: [Build_section "LOG" []]) /\
  strcasecmp (section_name (Build_section "TLS"
                              [("CertificateFile", "/etc/ssl/cert.pem");
                               ("RSAKeyFile", "/etc/ssl/key.pem")]%string)) "TLS" = 0 /\
  Forall (fun s' => strcasecmp (section_name s') "TLS" <> 0) [Build_section "LOG" []] /\
  config_parse "/etc/monkey/"
    (Build_polar_config (Some "/stale.pem"%string) (Some "/stale-chain.pem"%string)
                        None None) =
  (0, parsed).
Proof.
  assert (H : Forall (fun s' => strcasecmp (section_name s') "TLS" <> 0)
                     [Build_section "LOG" []]).
  { constructor; [discriminate | constructor]. }
  split; [reflexivity|]. split; [reflexivity|]. split; [exact H|].
  exact (config_parse_last_section "/etc/monkey/"
           (Build_polar_config (Some "/stale.pem"%string)
                               (Some "/stale-chain.pem"%string) None None)
           (take 2 conf_file) [Build_section "LOG" []]
           (Build_section "TLS" [("CertificateFile", "/etc/ssl/cert.pem");
                                 ("RSAKeyFile", "/etc/ssl/key.pem")]%string)
           eq_refl eq_refl H).
Defined.

Lemma polar_load_certs_chain_not_fatal_witness :
  0 <= (x509_crt_parse_file own_cert
          (cert_file (Build_polar_config (Some "/etc/ssl/cert.pem"%string)
                        (Some "/old/chain.pem"%string) None None))
          boot).1 /\
  exists r s' notes,
    polar_load_certs (Build_polar_config (Some "/etc/ssl/cert.pem"%string)
                        (Some "/old/chain.pem"%string) None None) boot =
    Some (r, s', notes) /\
    (r = 0 \/ r = -1) /\
    (0 <= (x509_crt_parse_file own_cert
             (cert_file (Build_polar_config (Some "/etc/ssl/cert.pem"%string)
                           (Some "/old/chain.pem"%string) None None))
             boot).1 ->
     r = 0 /\ forall msg, err msg ∉ notes).
Proof.
  split; [discriminate|].
  exact (polar_load_certs_chain_not_fatal
           (Build_polar_config (Some "/etc/ssl/cert.pem"%string)
              (Some "/old/chain.pem"%string) None None) boot).
Defined.

Lemma polar_load_dh_param_fallback_witness :
  dh_param_file parsed = Some "/etc/monkey/dhparam.pem"%string /\
  polar_load_dh_param parsed boot = Some (0, boot, []).
Proof.
  split; [reflexivity|].
  assert (H1 : (dhm_parse_dhmfile (Some "/etc/monkey/dhparam.pem"%string) boot).1 < 0)
    by reflexivity.
  assert (H2 : 0 <= (mpi_read_string dhm_P boot).1) by discriminate.
  assert (H3 : 0 <= (mpi_read_string dhm_G boot).1) by discriminate.
  exact (proj1 (proj2 (polar_load_dh_param_fallback parsed boot
                         "/etc/monkey/dhparam.pem" eq_refl)) H1 H2 H3).
Defined.

Lemma mk_tls_plugin_init_returns_zero_witness :
  (mem_alloc_z sizeof_polar_server_context boot).1 = true /\
  polar_init (snd (config_parse "/nowhere/" (Build_polar_config None None None None)))
             boot = Some (-1, boot, [warn "Load cert failed"]) /\
  exists r0 s' notes,
    polar_init (snd (config_parse "/nowhere/" (Build_polar_config None None None None)))
               (mem_alloc_z sizeof_polar_server_context boot).2 =
    Some (r0, s', notes) /\
    (r0 = 0 \/ r0 = -1) /\
    mk_tls_plugin_init "/nowhere/" boot =
    Some ((0, snd (config_parse "/nowhere/" (Build_polar_config None None None None))),
          s', notes).
Proof.
  split; [reflexivity|]. split; [reflexivity|].
  apply (mk_tls_plugin_init_returns_zero "/nowhere/" boot). reflexivity.
Defined.

Lemma polar_thread_init_result_witness :
  exists r w',
    polar_thread_init parsed no_thread = Done r w' /\
    ((r = 0 /\ local_context w' = Some (Build_polar_thread_context [])) \/
     (r = -1 /\ local_context w' = local_context no_thread)).
Proof.
  eexists _, _. split; [vm_compute; reflexivity|].
  eapply (proj1 (polar_thread_init_result parsed no_thread)).
  vm_compute. reflexivity.
Defined.

End OnPlainMore.
